(** * Device-code sign-in for OpenAI Codex: a shallow embedding

    The development follows the device authorization design of
    [src/integrations/openai-codex/oauth.ts]:

    - the client functions [requestDeviceCode],
      [pollForDeviceAuthorization] and [exchangeDeviceCodeForTokens] are
      functions over a virtual clock ([Date.now()], in milliseconds) and
      a scripted network;
    - the three device-code methods of [OpenAiCodexOAuthManager] act on a
      [Session], a transition system in which the suspended [async]
      calls interleave at their [await] points.

    Numbers are integers ([Z]); a JavaScript exception is a value of
    [JsError] returned on the left of a sum. *)

From Stdlib Require Import ZArith Lia Ascii.
From stdpp Require Import base option list strings pretty gmap.

Local Open Scope Z_scope.
Local Set Warnings "-register-all,-notation-for-abbreviation".

(** ** Exceptions *)

Inductive JsError : Type :=
| Error (message : string)   (* [new Error(message)] *)
| AbortError                 (* the reason of a signal aborted by [abort()] *)
| TimeoutError               (* the reason of [AbortSignal.timeout(ms)] *)
| NetworkError               (* [fetch] rejected: no response was received *)
| SyntaxError                (* [response.json()] on a body that is not JSON *)
| ZodError.                  (* [schema.parse] on a value of the wrong shape *)

(** ** JSON values and the two zod schemas *)

Inductive json : Type :=
| JNull
| JBool (b : bool)
| JNumber (n : Z)
| JString (s : string)
| JArray (items : list json)
| JObject (fields : list (string * json)).

(** Property access on the fields of a parsed object. *)
Fixpoint get (key : string) (fields : list (string * json)) : option json :=
  match fields with
  | [] => None
  | (k, v) :: rest => if String.eqb k key then Some v else get key rest
  end.

(** [z.string()] on a property: it must be present and a string. *)
Definition z_string (v : option json) : option string :=
  match v with
  | Some (JString s) => Some s
  | _ => None
  end.

(** [z.number().optional()]: absent, or a number. *)
Definition z_number_optional (v : option json) : option (option Z) :=
  match v with
  | None => Some None
  | Some (JNumber n) => Some (Some n)
  | Some _ => None
  end.

Record DeviceCodeResponse : Type := {
  device_auth_id : string;
  user_code : string;
  interval : option Z;
}.

Definition deviceCodeResponseSchema_parse (v : json) : JsError + DeviceCodeResponse :=
  match v with
  | JObject fields =>
      match z_string (get "device_auth_id" fields),
            z_string (get "user_code" fields),
            z_number_optional (get "interval" fields) with
      | Some d, Some u, Some i =>
          inr {| device_auth_id := d; user_code := u; interval := i |}
      | _, _, _ => inl ZodError
      end
  | _ => inl ZodError
  end.

Record DeviceTokenResponse : Type := {
  authorization_code : string;
  code_challenge : string;
  code_verifier : string;
}.

Definition deviceTokenResponseSchema_parse (v : json) : JsError + DeviceTokenResponse :=
  match v with
  | JObject fields =>
      match z_string (get "authorization_code" fields),
            z_string (get "code_challenge" fields),
            z_string (get "code_verifier" fields) with
      | Some a, Some c, Some v =>
          inr {| authorization_code := a; code_challenge := c; code_verifier := v |}
      | _, _, _ => inl ZodError
      end
  | _ => inl ZodError
  end.

(** ** HTTP responses *)

Record Response : Type := {
  status : Z;
  statusText : string;
  body : option json;   (* [None]: the body is not JSON *)
}.

(** [response.ok] *)
Definition ok (r : Response) : bool := (200 <=? status r) && (status r <=? 299).

(** [await response.json()] *)
Definition response_json (r : Response) : JsError + json :=
  match body r with
  | Some v => inr v
  | None => inl SyntaxError
  end.

(** ** Configuration *)

Module OPENAI_CODEX_OAUTH_CONFIG.
Definition clientId : string := "app_EMoamEEZ73f0CkXaXp7hrann".
End OPENAI_CODEX_OAUTH_CONFIG.

Module OPENAI_CODEX_DEVICE_AUTH_CONFIG.
Definition deviceCodeEndpoint : string :=
  "https://auth.openai.com/api/accounts/deviceauth/usercode".
Definition deviceTokenEndpoint : string :=
  "https://auth.openai.com/api/accounts/deviceauth/token".
Definition verificationUrl : string := "https://auth.openai.com/codex/device".
Definition deviceCallbackRedirectUri : string :=
  "https://auth.openai.com/deviceauth/callback".
Definition pollingIntervalMs : Z := 5000.
Definition timeoutMs : Z := 15 * 60 * 1000.
End OPENAI_CODEX_DEVICE_AUTH_CONFIG.

(** ** Requests *)

Record ExchangeBody : Type := {
  grant_type : string;
  client_id : string;
  code : string;
  redirect_uri : string;
  exchange_code_verifier : string;
}.

Inductive Request : Type :=
| DeviceCodeRequest (clientId : string)
| PollRequest (deviceAuthId userCode : string)
| ExchangeRequest (params : ExchangeBody).

Definition is_poll (r : Request) : bool :=
  match r with PollRequest _ _ => true | _ => false end.

Definition is_exchange (r : Request) : bool :=
  match r with ExchangeRequest _ => true | _ => false end.

(** Modelled from the spec: the type [OpenAiCodexCredentials], which the
    design only names; the fields are those of the specification's
    [Credentials] outcome. *)
Record OpenAiCodexCredentials : Type := {
  accessToken : string;
  refreshToken : string;
  idToken : string;
  accountId : string;
}.

(** ** Options of the polling call, generic in what a signal is *)

Record PollOptions (Signal : Type) : Type := {
  intervalMs : option Z;
  timeoutMs : option Z;
  signal : option Signal;
}.
Arguments intervalMs {Signal} _.
Arguments timeoutMs {Signal} _.
Arguments signal {Signal} _.

(** [options?.intervalMs ?? OPENAI_CODEX_DEVICE_AUTH_CONFIG.pollingIntervalMs] *)
Definition effectiveIntervalMs {S : Type} (options : option (PollOptions S)) : Z :=
  default OPENAI_CODEX_DEVICE_AUTH_CONFIG.pollingIntervalMs (options ≫= intervalMs).

(** [options?.timeoutMs ?? OPENAI_CODEX_DEVICE_AUTH_CONFIG.timeoutMs] *)
Definition effectiveTimeoutMs {S : Type} (options : option (PollOptions S)) : Z :=
  default OPENAI_CODEX_DEVICE_AUTH_CONFIG.timeoutMs (options ≫= timeoutMs).

(** ** What the two response handlers decide *)

Definition notEnabledMessage : string :=
  "Device code authentication is not enabled for your account. " +:+
  "Enable 'Device code authentication for Codex' in your ChatGPT security settings.".

Definition requestFailedMessage (r : Response) : string :=
  "Device code request failed: " +:+ pretty (status r) +:+ " " +:+ statusText r.

Definition pollingFailedMessage (r : Response) : string :=
  "Device token polling failed: " +:+ pretty (status r).

Definition timedOutMessage : string :=
  "Device code authentication timed out (15 minutes)".

(** [requestDeviceCode], from the response on. *)
Definition deviceCodeResult (response : Response) : JsError + DeviceCodeResponse :=
  if status response =? 404 then inl (Error notEnabledMessage)
  else if negb (ok response) then inl (Error (requestFailedMessage response))
  else
    match response_json response with
    | inl e => inl e
    | inr v => deviceCodeResponseSchema_parse v
    end.

(** The body of the polling loop, from the response on. *)
Inductive PollStep : Type :=
| Continue                                 (* [continue] *)
| Throw (e : JsError)
| Exchange (authorizationCode codeVerifier : string).

Definition pending (response : Response) : bool :=
  (status response =? 403) || (status response =? 404).

Definition pollStep (response : Response) : PollStep :=
  if pending response then Continue
  else if negb (ok response) then Throw (Error (pollingFailedMessage response))
  else
    match response_json response with
    | inl e => Throw e
    | inr v =>
        match deviceTokenResponseSchema_parse v with
        | inl e => Throw e
        | inr result => Exchange (authorization_code result) (code_verifier result)
        end
    end.

(** [exchangeDeviceCodeForTokens] builds this body. *)
Definition exchangeBody (authorizationCode codeVerifier : string) : ExchangeBody :=
  {| grant_type := "authorization_code";
     client_id := OPENAI_CODEX_OAUTH_CONFIG.clientId;
     code := authorizationCode;
     redirect_uri := OPENAI_CODEX_DEVICE_AUTH_CONFIG.deviceCallbackRedirectUri;
     exchange_code_verifier := codeVerifier |}.

(** * The client on a virtual clock *)

(** ** Signals

    A signal is described by the instant at which it fires, if it ever
    does, and by the reason it then carries: [AbortError] for the signal
    of an [AbortController], [TimeoutError] for [AbortSignal.timeout]. *)

Record AbortSignal : Type := {
  firesAt : option Z;
  reason : JsError;
}.

(** [signal.aborted] read at instant [t]. *)
Definition aborted (s : AbortSignal) (t : Z) : bool :=
  match firesAt s with
  | Some a => a <=? t
  | None => false
  end.

(** [signal?.throwIfAborted()] at instant [t]: the exception thrown, if any. *)
Definition throwIfAborted (s : option AbortSignal) (t : Z) : option JsError :=
  match s with
  | Some sg => if aborted sg t then Some (reason sg) else None
  | None => None
  end.

(** [AbortSignal.timeout(ms)] created at instant [t]. *)
Definition AbortSignal_timeout (ms t : Z) : AbortSignal :=
  {| firesAt := Some (t + ms); reason := TimeoutError |}.

(** The signal of an [AbortController] whose [abort()] is called at
    [cancelledAt]. *)
Definition controllerSignal (cancelledAt : option Z) : AbortSignal :=
  {| firesAt := cancelledAt; reason := AbortError |}.

(** ** The world: clock and requests sent *)

Record World : Type := {
  now : Z;                         (* [Date.now()] *)
  trace : list (Z * Request);      (* requests put on the wire, oldest first *)
}.

Definition sent (t : Z) (r : Request) (w : World) : World :=
  {| now := now w; trace := trace w ++ [(t, r)] |}.

Definition at_time (t : Z) (w : World) : World :=
  {| now := t; trace := trace w |}.

(** What the network does with a request: it settles after [latency]
    milliseconds (a negative value counts as zero) with [outcome]. *)
Record Reply (A : Type) : Type := {
  latency : Z;
  outcome : JsError + A;
}.
Arguments latency {A} _.
Arguments outcome {A} _.

Definition arrival {A : Type} (t : Z) (r : Reply A) : Z := t + Z.max 0 (latency r).

(** The provider and the network between it and the client. The token
    endpoint's reply stands for the part of [exchangeDeviceCodeForTokens]
    that the design leaves to the existing exchange code: the request
    once sent, and the token set parsed into credentials. *)
Record Network : Type := {
  usercode : Reply Response;                    (* the device-code endpoint *)
  devicetoken : nat -> Reply Response;          (* the k-th polling request, from 0 *)
  oauthtoken : ExchangeBody -> Reply OpenAiCodexCredentials;
}.

(** [setTimeout(f, ms)] of Node.js: a delay below 1 or above 2^31-1 is
    set to 1. *)
Definition TIMEOUT_MAX : Z := 2147483647.

Definition timerDelay (ms : Z) : Z :=
  if (ms <? 1) || (TIMEOUT_MAX <? ms) then 1 else ms.

(** [await new Promise(resolve => setTimeout(resolve, ms))] *)
Definition sleep (ms : Z) (w : World) : World :=
  at_time (now w + timerDelay ms) w.

(** [await fetch(url, { ..., signal })]. A signal that has already fired
    rejects the call before anything is sent; one that fires while the
    request is in flight rejects it at that instant; otherwise the call
    settles when the reply arrives. *)
Definition fetch {A : Type} (req : Request) (sg : option AbortSignal)
    (reply : Reply A) (w : World) : (JsError + A) * World :=
  match throwIfAborted sg (now w) with
  | Some e => (inl e, w)
  | None =>
      let w1 := sent (now w) req w in
      let t := arrival (now w) reply in
      match sg with
      | Some s =>
          if aborted s t
          then (inl (reason s), at_time (default t (firesAt s)) w1)
          else (outcome reply, at_time t w1)
      | None => (outcome reply, at_time t w1)
      end
  end.

Section Client.

Variable net : Network.

Definition requestDeviceCode (w : World) : (JsError + DeviceCodeResponse) * World :=
  let '(response, w1) :=
    fetch (DeviceCodeRequest OPENAI_CODEX_OAUTH_CONFIG.clientId)
          (Some (AbortSignal_timeout 30000 (now w))) (usercode net) w in
  match response with
  | inl e => (inl e, w1)
  | inr response => (deviceCodeResult response, w1)
  end.

Definition exchangeDeviceCodeForTokens (authorizationCode codeVerifier : string)
    (w : World) : (JsError + OpenAiCodexCredentials) * World :=
  let body := exchangeBody authorizationCode codeVerifier in
  fetch (ExchangeRequest body) None (oauthtoken net body) w.

Section Poll.

Variables deviceAuthId userCode : string.

(** The [while] loop, entered for the [k]-th time (from 0) with
    [fuel] iterations allowed; [None] when they run out. *)
Fixpoint poll_loop (intervalMs deadline : Z) (signal : option AbortSignal)
    (fuel : nat) (k : nat) (w : World)
    : option ((JsError + OpenAiCodexCredentials) * World) :=
  match fuel with
  | O => None
  | S fuel' =>
      if negb (now w <? deadline) then Some (inl (Error timedOutMessage), w)
      else
        match throwIfAborted signal (now w) with
        | Some e => Some (inl e, w)
        | None =>
            let w1 := sleep intervalMs w in
            match fetch (PollRequest deviceAuthId userCode) signal
                        (devicetoken net k) w1 with
            | (inl e, w2) => Some (inl e, w2)
            | (inr response, w2) =>
                match pollStep response with
                | Continue => poll_loop intervalMs deadline signal fuel' (S k) w2
                | Throw e => Some (inl e, w2)
                | Exchange authorizationCode codeVerifier =>
                    Some (exchangeDeviceCodeForTokens authorizationCode codeVerifier w2)
                end
            end
        end
  end.

Definition pollForDeviceAuthorization
    (options : option (PollOptions AbortSignal)) (fuel : nat) (w : World)
    : option ((JsError + OpenAiCodexCredentials) * World) :=
  let intervalMs := effectiveIntervalMs options in
  let timeoutMs := effectiveTimeoutMs options in
  let deadline := now w + timeoutMs in
  poll_loop intervalMs deadline (options ≫= signal) fuel 0%nat w.

End Poll.

End Client.

(** Iterations that suffice for a loop entered at [t]: every iteration
    that continues sleeps for at least a millisecond. *)
Definition enoughFuel (deadline t : Z) : nat := S (Z.to_nat (deadline - t)).

(** The world after an iteration entered at [w] whose [k]-th polling
    request was sent and answered: the request left when the timer fired
    and the loop is back at its head when the reply arrives. *)
Definition pendingStep (net : Network) (deviceAuthId userCode : string)
    (intervalMs : Z) (k : nat) (w : World) : World :=
  let t := now w + timerDelay intervalMs in
  {| now := arrival t (devicetoken net k);
     trace := trace w ++ [(t, PollRequest deviceAuthId userCode)] |}.

(** The world after [n] such iterations, the first one being the [k]-th. *)
Fixpoint pendingRun (net : Network) (deviceAuthId userCode : string)
    (intervalMs : Z) (n k : nat) (w : World) : World :=
  match n with
  | O => w
  | S n' =>
      pendingRun net deviceAuthId userCode intervalMs n' (S k)
        (pendingStep net deviceAuthId userCode intervalMs k w)
  end.

(** The [k]-th polling request is answered with a pending status. *)
Definition answersPending (net : Network) (k : nat) : Prop :=
  ∃ response, outcome (devicetoken net k) = inr response ∧ pending response = true.

(** Instants at which the requests of a trace that satisfy [p] were sent. *)
Definition sentAt (p : Request → bool) (tr : list (Z * Request)) : list Z :=
  (filter (λ e, p e.2 = true) tr).*1.

(** * The session manager, with its calls interleaved

    [aborted] flags of the [AbortController] objects live in a heap
    indexed by allocation order; the manager's field holds a reference
    into it. An [async] call that is suspended at an [await] is a [Call]
    with the point it waits at; an [Action] is either an invocation of a
    method or the settling of what a call waits for. The clock is left
    out: whether [Date.now() < deadline] holds when a loop head is
    reached comes with the action. *)

Definition ControllerRef : Type := nat.

Inductive PollPc : Type :=
| AwaitTimer                                   (* in the [setTimeout] promise *)
| AwaitPoll                                    (* in [fetch(deviceTokenEndpoint)] *)
| AwaitExchange                                (* in [exchangeDeviceCodeForTokens] *)
| AwaitSave (credentials : OpenAiCodexCredentials)   (* in [this.saveCredentials] *)
| Settled (result : JsError + OpenAiCodexCredentials).

Inductive Call : Type :=
| StartCall (result : option (JsError + DeviceCodeResponse))
    (* [startDeviceCodeFlow()]; [None] while the request is in flight *)
| WaitCall (deviceAuthId userCode : string)
    (options : PollOptions ControllerRef) (pc : PollPc).
    (* [waitForDeviceAuthorization(deviceAuthId, userCode)] past its guard *)

Record Session : Type := {
  deviceCodeAbortController : option ControllerRef;   (* the private field *)
  controllers : list bool;               (* [signal.aborted] of every controller made *)
  calls : list Call;                     (* the calls made, by order of invocation *)
  credentialStore : option OpenAiCodexCredentials;    (* the persisted set *)
  requests : list Request;               (* requests put on the wire, oldest first *)
}.

Definition initial : Session :=
  {| deviceCodeAbortController := None; controllers := []; calls := [];
     credentialStore := None; requests := [] |}.

Definition set_controller (c : option ControllerRef) (s : Session) : Session :=
  {| deviceCodeAbortController := c; controllers := controllers s;
     calls := calls s; credentialStore := credentialStore s;
     requests := requests s |}.

Definition set_controllers (h : list bool) (s : Session) : Session :=
  {| deviceCodeAbortController := deviceCodeAbortController s; controllers := h;
     calls := calls s; credentialStore := credentialStore s;
     requests := requests s |}.

Definition set_calls (l : list Call) (s : Session) : Session :=
  {| deviceCodeAbortController := deviceCodeAbortController s;
     controllers := controllers s; calls := l;
     credentialStore := credentialStore s; requests := requests s |}.

Definition send (r : Request) (s : Session) : Session :=
  {| deviceCodeAbortController := deviceCodeAbortController s;
     controllers := controllers s; calls := calls s;
     credentialStore := credentialStore s; requests := requests s ++ [r] |}.

(** Modelled from the spec: the manager's existing [saveCredentials],
    which the design calls and does not show; it persists the credentials
    as the active set. *)
Definition saveCredentials (credentials : OpenAiCodexCredentials) (s : Session)
    : Session :=
  {| deviceCodeAbortController := deviceCodeAbortController s;
     controllers := controllers s; calls := calls s;
     credentialStore := Some credentials; requests := requests s |}.

(** [controller.abort()] *)
Definition abort (c : ControllerRef) (s : Session) : Session :=
  set_controllers (<[c:=true]> (controllers s)) s.

(** [controller.signal.aborted] *)
Definition signalAborted (s : Session) (c : ControllerRef) : bool :=
  default false (controllers s !! c).

Definition optionsAborted (s : Session) (options : PollOptions ControllerRef) : bool :=
  from_option (signalAborted s) false (signal options).

(** [new AbortController()] *)
Definition newAbortController (s : Session) : ControllerRef * Session :=
  (length (controllers s), set_controllers (controllers s ++ [false]) s).

(** ** The three methods *)

Definition cancelDeviceCodeFlow (s : Session) : Session :=
  let s1 :=
    match deviceCodeAbortController s with
    | Some c => abort c s
    | None => s
    end in
  set_controller None s1.

(** The call is appended to [calls] suspended in the [fetch] of
    [requestDeviceCode]; its signal, a fresh 30-second timeout, has not
    fired when the request leaves. *)
Definition startDeviceCodeFlow (s : Session) : Session :=
  let s1 := cancelDeviceCodeFlow s in
  let '(c, s2) := newAbortController s1 in
  let s3 := set_controller (Some c) s2 in
  let s4 := send (DeviceCodeRequest OPENAI_CODEX_OAUTH_CONFIG.clientId) s3 in
  set_calls (calls s4 ++ [StartCall None]) s4.

(** The head of the polling loop: [while (Date.now() < deadline)], then
    [throwIfAborted()], then the timer is set. *)
Definition loopHead (expired isAborted : bool) : PollPc :=
  if expired then Settled (inl (Error timedOutMessage))
  else if isAborted then Settled (inl AbortError)
  else AwaitTimer.

(** The manager passes the signal of its controller and nothing else. *)
Definition waitOptions {S : Type} (sg : S) : PollOptions S :=
  {| intervalMs := None; timeoutMs := None; signal := Some sg |}.

(** The guard either rejects at once, leaving everything as it was, or
    the call runs [pollForDeviceAuthorization] up to its first [await];
    the deadline being [timeoutMs] away, the first test of the loop
    fails only for a timeout that is not positive. *)
Definition waitForDeviceAuthorization (deviceAuthId userCode : string) (s : Session)
    : option JsError * Session :=
  match deviceCodeAbortController s with
  | None => (Some (Error "No pending device code flow"), s)
  | Some c =>
      let options := waitOptions c in
      let pc := loopHead (effectiveTimeoutMs (Some options) <=? 0)
                         (optionsAborted s options) in
      (None, set_calls (calls s ++ [WaitCall deviceAuthId userCode options pc]) s)
  end.

(** ** Resuming a suspended call *)

Definition resume (i : nat) (c : Call) (s : Session) : Session :=
  set_calls (<[i:=c]> (calls s)) s.

(** The response to the device-code request arrives, or the request fails. *)
Definition deviceCodeSettles (i : nat) (r : JsError + Response) (s : Session) : Session :=
  match calls s !! i with
  | Some (StartCall None) =>
      let result := match r with inl e => inl e | inr response => deviceCodeResult response end in
      resume i (StartCall (Some result)) s
  | _ => s
  end.

(** The timer of a sleeping poll fires: [fetch] is called with the signal. *)
Definition timerFires (i : nat) (s : Session) : Session :=
  match calls s !! i with
  | Some (WaitCall d u options AwaitTimer) =>
      if optionsAborted s options
      then resume i (WaitCall d u options (Settled (inl AbortError))) s
      else resume i (WaitCall d u options AwaitPoll) (send (PollRequest d u) s)
  | _ => s
  end.

(** The polling [fetch] settles: rejected by the signal if that has been
    aborted, and with [r] otherwise. *)
Definition pollSettles (i : nat) (r : JsError + Response) (expired : bool)
    (s : Session) : Session :=
  match calls s !! i with
  | Some (WaitCall d u options AwaitPoll) =>
      if optionsAborted s options
      then resume i (WaitCall d u options (Settled (inl AbortError))) s
      else
        match r with
        | inl e => resume i (WaitCall d u options (Settled (inl e))) s
        | inr response =>
            match pollStep response with
            | Continue =>
                resume i (WaitCall d u options
                            (loopHead expired (optionsAborted s options))) s
            | Throw e => resume i (WaitCall d u options (Settled (inl e))) s
            | Exchange authorizationCode codeVerifier =>
                resume i (WaitCall d u options AwaitExchange)
                  (send (ExchangeRequest (exchangeBody authorizationCode codeVerifier)) s)
            end
        end
  | _ => s
  end.

(** The token exchange settles; on success [saveCredentials] is called. *)
Definition exchangeSettles (i : nat) (r : JsError + OpenAiCodexCredentials)
    (s : Session) : Session :=
  match calls s !! i with
  | Some (WaitCall d u options AwaitExchange) =>
      match r with
      | inl e => resume i (WaitCall d u options (Settled (inl e))) s
      | inr credentials => resume i (WaitCall d u options (AwaitSave credentials)) s
      end
  | _ => s
  end.

(** [saveCredentials] settles and the call runs to its [return]. *)
Definition saveSettles (i : nat) (s : Session) : Session :=
  match calls s !! i with
  | Some (WaitCall d u options (AwaitSave credentials)) =>
      let s1 := saveCredentials credentials s in
      let s2 := set_controller None s1 in
      resume i (WaitCall d u options (Settled (inr credentials))) s2
  | _ => s
  end.

(** ** Runs *)

Inductive Action : Type :=
| CallStart
| CallWait (deviceAuthId userCode : string)
| CallCancel
| DeviceCodeSettles (i : nat) (r : JsError + Response)
| TimerFires (i : nat)
| PollSettles (i : nat) (r : JsError + Response) (expired : bool)
| ExchangeSettles (i : nat) (r : JsError + OpenAiCodexCredentials)
| SaveSettles (i : nat).

Definition step (s : Session) (a : Action) : Session :=
  match a with
  | CallStart => startDeviceCodeFlow s
  | CallWait d u => (waitForDeviceAuthorization d u s).2
  | CallCancel => cancelDeviceCodeFlow s
  | DeviceCodeSettles i r => deviceCodeSettles i r s
  | TimerFires i => timerFires i s
  | PollSettles i r expired => pollSettles i r expired s
  | ExchangeSettles i r => exchangeSettles i r s
  | SaveSettles i => saveSettles i s
  end.

Definition run (l : list Action) (s : Session) : Session := foldl step s l.

(** A poll is running when its call sleeps or has a polling request in
    flight and its signal has not been aborted. *)
Definition polling (s : Session) (c : Call) : bool :=
  match c with
  | WaitCall _ _ options (AwaitTimer | AwaitPoll) => negb (optionsAborted s options)
  | _ => false
  end.

Definition runningPolls (s : Session) : list Call := filter (λ c, polling s c = true) (calls s).

(** The call whose suspended computation an action resumes. *)
Definition resumed (a : Action) : option nat :=
  match a with
  | CallStart | CallWait _ _ | CallCancel => None
  | DeviceCodeSettles i _ | TimerFires i | PollSettles i _ _
  | ExchangeSettles i _ | SaveSettles i => Some i
  end.

(** * Remote environments ([src/utils/env.ts])

    [process.env] maps names to strings; a variable that is unset reads
    [undefined], and the empty string is falsy like it. *)

Definition truthy (v : option string) : bool :=
  match v with
  | Some s => negb (String.eqb s "")
  | None => false
  end.

Definition isRemoteEnvironment (env : gmap string string) : bool :=
  truthy (env !! "CODESPACES")
  || truthy (env !! "GITHUB_CODESPACE_TOKEN")
  || truthy (env !! "REMOTE_CONTAINERS")
  || truthy (env !! "SSH_CONNECTION")
  || truthy (env !! "SSH_CLIENT")
  || truthy (env !! "SSH_TTY").

(** The variables that [isRemoteEnvironment] reads. *)
Definition remoteIndicators : list string :=
  ["CODESPACES"; "GITHUB_CODESPACE_TOKEN"; "REMOTE_CONTAINERS";
   "SSH_CONNECTION"; "SSH_CLIENT"; "SSH_TTY"].

(** * Signing in from the extension host
    ([src/core/controller/account/openAiCodexSignIn.ts])

    The device-code branch of [openAiCodexSignIn], with what the host
    shows and posts recorded as events. *)

(** [String.prototype.includes] *)
Fixpoint includes (needle s : string) : bool :=
  String.prefix needle s
  || match s with
     | EmptyString => false
     | String _ rest => includes needle rest
     end.

Module ExtensionHost.

Record DeviceCode : Type := {
  userCode : string;
  verificationUrl : string;
}.

Inductive ShowMessageType : Type := INFORMATION | ERROR.

Inductive HostEvent : Type :=
| ShowMessage (type : ShowMessageType) (message : string)
    (* [HostProvider.window.showMessage] *)
| PostStateToWebview (openAiCodexDeviceCode : option DeviceCode).
    (* [controller.postStateToWebview()], with the field of
       [getStateToPostToWebview()] that the design adds *)

Record Host : Type := {
  session : Session;                            (* [openAiCodexOAuthManager] *)
  openAiCodexDeviceCode : option DeviceCode;    (* [controller.openAiCodexDeviceCode] *)
  events : list HostEvent;                      (* oldest first *)
}.

Definition with_session (s : Session) (h : Host) : Host :=
  {| session := s; openAiCodexDeviceCode := openAiCodexDeviceCode h; events := events h |}.

Definition with_deviceCode (d : option DeviceCode) (h : Host) : Host :=
  {| session := session h; openAiCodexDeviceCode := d; events := events h |}.

Definition emit (e : HostEvent) (h : Host) : Host :=
  {| session := session h; openAiCodexDeviceCode := openAiCodexDeviceCode h;
     events := events h ++ [e] |}.

(** [openAiCodexDeviceCode: this.openAiCodexDeviceCode ?? null] *)
Definition postStateToWebview (h : Host) : Host :=
  emit (PostStateToWebview (openAiCodexDeviceCode h)) h.

(** [error instanceof Error ? error.message : String(error)]; what the
    platform prints for an exception that the code does not construct
    itself is [describe]. *)
Definition errorMessage (describe : JsError → string) (error : JsError) : string :=
  match error with
  | Error message => message
  | _ => describe error
  end.

(** From [startDeviceCodeFlow()] having resolved with [deviceCode] up to
    the call of [waitForDeviceAuthorization], which is not awaited. *)
Definition deviceCodeObtained (deviceCode : DeviceCodeResponse) (h : Host) : Host :=
  let h1 := with_deviceCode
              (Some {| userCode := user_code deviceCode;
                       verificationUrl := OPENAI_CODEX_DEVICE_AUTH_CONFIG.verificationUrl |})
              h in
  let h2 := postStateToWebview h1 in
  with_session
    (waitForDeviceAuthorization (device_auth_id deviceCode) (user_code deviceCode)
       (session h2)).2
    h2.

(** The [.then] handler. *)
Definition onAuthorized (h : Host) : Host :=
  let h1 := with_deviceCode None h in
  let h2 := emit (ShowMessage INFORMATION "Successfully signed in to OpenAI Codex") h1 in
  postStateToWebview h2.

(** The [.catch] handler. *)
Definition onFailed (describe : JsError → string) (error : JsError) (h : Host) : Host :=
  let h1 := with_deviceCode None h in
  let h2 := with_session (cancelDeviceCodeFlow (session h1)) h1 in
  let message := errorMessage describe error in
  let h3 :=
    if negb (includes "timed out" message)
    then emit (ShowMessage ERROR ("OpenAI Codex sign in failed: " +:+ message)) h2
    else h2 in
  postStateToWebview h3.

(** What [OpenAiCodexProvider] renders in its first block. *)
Inductive View : Type :=
| Authenticated
| EnterCode (url code : string)
| SignIn.

Definition OpenAiCodexProvider (openAiCodexIsAuthenticated : bool)
    (deviceCode : option DeviceCode) : View :=
  if openAiCodexIsAuthenticated then Authenticated
  else
    match deviceCode with
    | Some d => EnterCode (verificationUrl d) (userCode d)
    | None => SignIn
    end.

End ExtensionHost.

(** * Sample data

    Responses, networks and schedules on which the statements below are
    tried. *)

Definition epoch : World := {| now := 0; trace := [] |}.

Definition notFound : Response :=
  {| status := 404; statusText := "Not Found"; body := None |}.

Definition forbidden : Response :=
  {| status := 403; statusText := "Forbidden"; body := None |}.

Definition serverError : Response :=
  {| status := 500; statusText := "Internal Server Error"; body := None |}.

Definition deviceCodeIssued (seconds : Z) : Response :=
  {| status := 200; statusText := "OK";
     body := Some (JObject [("device_auth_id", JString "d1");
                            ("user_code", JString "ABCD-EFGH");
                            ("interval", JNumber seconds)]) |}.

Definition authorized : Response :=
  {| status := 200; statusText := "OK";
     body := Some (JObject [("authorization_code", JString "ac1");
                            ("code_challenge", JString "cc");
                            ("code_verifier", JString "cv")]) |}.

Definition someCredentials : OpenAiCodexCredentials :=
  {| accessToken := "at"; refreshToken := "rt"; idToken := "it"; accountId := "acct" |}.

Definition reply {A : Type} (ms : Z) (r : JsError + A) : Reply A :=
  {| latency := ms; outcome := r |}.

(** The feature is disabled for the account. *)
Definition disabledNet : Network :=
  {| usercode := reply 120 (inr notFound);
     devicetoken := λ _, reply 80 (inr notFound);
     oauthtoken := λ _, reply 200 (inl NetworkError) |}.

(** The device-code endpoint is down. *)
Definition brokenNet : Network :=
  {| usercode := reply 120 (inr serverError);
     devicetoken := λ _, reply 80 (inr notFound);
     oauthtoken := λ _, reply 200 (inl NetworkError) |}.

(** Not found three times, then the success payload; the exchange
    succeeds or not. *)
Definition scenarioNet (exchange : JsError + OpenAiCodexCredentials) : Network :=
  {| usercode := reply 120 (inr (deviceCodeIssued 5));
     devicetoken := λ k, reply 80 (inr (if (k <? 3)%nat then notFound else authorized));
     oauthtoken := λ _, reply 200 exchange |}.

(** The user never authorizes. *)
Definition pendingNet : Network :=
  {| usercode := reply 120 (inr (deviceCodeIssued 5));
     devicetoken := λ k, reply 80 (inr (if Nat.even k then notFound else forbidden));
     oauthtoken := λ _, reply 200 (inl NetworkError) |}.

(** The user authorizes at once; replies take no time. *)
Definition promptNet : Network :=
  {| usercode := reply 0 (inr (deviceCodeIssued 10));
     devicetoken := λ _, reply 0 (inr authorized);
     oauthtoken := λ _, reply 0 (inr someCredentials) |}.

(** Two pending replies, then the provider fails; replies take no time. *)
Definition failingNet : Network :=
  {| usercode := reply 0 (inr (deviceCodeIssued 10));
     devicetoken := λ k, reply 0 (inr (if (k <? 2)%nat then notFound else serverError));
     oauthtoken := λ _, reply 0 (inl NetworkError) |}.

(** The user authorizes a little before the fifteen minutes are over:
    the 178th polling request is the first to be answered with the
    payload. *)
Definition lateNet : Network :=
  {| usercode := reply 120 (inr (deviceCodeIssued 5));
     devicetoken := λ k, reply 80 (inr (if (k <? 177)%nat then notFound else authorized));
     oauthtoken := λ _, reply 200 (inr someCredentials) |}.

Definition cancelledAt (t : Z) (ms : option Z) : option (PollOptions AbortSignal) :=
  Some {| intervalMs := ms; timeoutMs := None; signal := Some (controllerSignal (Some t)) |}.

Definition deviceCodeFor (d u : string) : Response :=
  {| status := 200; statusText := "OK";
     body := Some (JObject [("device_auth_id", JString d); ("user_code", JString u)]) |}.

(** A sign-in that goes through. *)
Definition signInSchedule : list Action :=
  [CallStart; DeviceCodeSettles 0 (inr (deviceCodeIssued 5));
   CallWait "d1" "ABCD-EFGH"; TimerFires 1; PollSettles 1 (inr notFound) false;
   TimerFires 1; PollSettles 1 (inr authorized) false;
   ExchangeSettles 1 (inr someCredentials); SaveSettles 1].

(** A sign-in that the provider fails on the first poll. *)
Definition failedSchedule : list Action :=
  [CallStart; DeviceCodeSettles 0 (inr (deviceCodeIssued 5));
   CallWait "d1" "ABCD-EFGH"; TimerFires 1; PollSettles 1 (inr serverError) false].

(** A sign-in that the provider refuses: the feature is not enabled. *)
Definition refusedSchedule : list Action :=
  [CallStart; DeviceCodeSettles 0 (inr notFound)].


(** Three sign-ins, each started and then awaited. The second is
    started while the first exchanges its code for tokens; the first
    then completes; the third is started while the second still polls. *)
Definition restartSchedule : list Action :=
  [CallStart; DeviceCodeSettles 0 (inr (deviceCodeFor "d1" "AAAA-AAAA"));
   CallWait "d1" "AAAA-AAAA"; TimerFires 1; PollSettles 1 (inr authorized) false;
   CallStart; DeviceCodeSettles 2 (inr (deviceCodeFor "d2" "BBBB-BBBB"));
   CallWait "d2" "BBBB-BBBB";
   ExchangeSettles 1 (inr someCredentials); SaveSettles 1;
   CallStart; DeviceCodeSettles 4 (inr (deviceCodeFor "d3" "CCCC-CCCC"));
   CallWait "d3" "CCCC-CCCC";
   TimerFires 3; TimerFires 5].

(** * Facts about the client *)

Lemma timerDelay_pos ms : 1 ≤ timerDelay ms.
Proof.
  unfold timerDelay, TIMEOUT_MAX.
  destruct (ms <? 1) eqn:E1; simpl; [lia|].
  destruct (2147483647 <? ms); lia.
Qed.

Lemma timerDelay_id ms : 1 ≤ ms ≤ TIMEOUT_MAX → timerDelay ms = ms.
Proof.
  unfold timerDelay, TIMEOUT_MAX. intros [H1 H2].
  destruct (ms <? 1) eqn:E1; [lia|].
  destruct (2147483647 <? ms) eqn:E2; [lia|]. reflexivity.
Qed.

Lemma arrival_ge {A} t (r : Reply A) : t ≤ arrival t r.
Proof. unfold arrival. lia. Qed.

Lemma throwIfAborted_None_iff sg t :
  throwIfAborted sg t = None ↔ ∀ s a, sg = Some s → firesAt s = Some a → t < a.
Proof.
  unfold throwIfAborted, aborted. destruct sg as [s|]; [|split; [intros _ ? ? [=]|done]].
  destruct (firesAt s) as [a|] eqn:E.
  - destruct (a <=? t) eqn:L; split; try done.
    + intros H. specialize (H s a eq_refl E). lia.
    + intros _ s' a' [= <-]. rewrite E. intros [= <-]. lia.
  - split; [|done]. intros _ s' a' [= <-]. rewrite E. done.
Qed.

Lemma throwIfAborted_mono sg t t' :
  t ≤ t' → throwIfAborted sg t' = None → throwIfAborted sg t = None.
Proof.
  rewrite !throwIfAborted_None_iff. intros Ht H s a Hs Ha.
  specialize (H s a Hs Ha). lia.
Qed.

(** A request that is not cut short by its signal is sent at once and
    settles with the reply when that arrives. *)
Lemma fetch_through {A} req sg (reply : Reply A) w :
  throwIfAborted sg (arrival (now w) reply) = None →
  fetch req sg reply w =
    (outcome reply, at_time (arrival (now w) reply) (sent (now w) req w)).
Proof.
  intros H. unfold fetch.
  rewrite (throwIfAborted_mono sg (now w) _ (arrival_ge _ _) H).
  destruct sg as [s|]; [|done].
  simpl in H. destruct (aborted s _); [done|reflexivity].
Qed.

Lemma throwIfAborted_fires sg s a t :
  sg = Some s → firesAt s = Some a →
  throwIfAborted sg t = if a <=? t then Some (reason s) else None.
Proof. intros -> H. unfold throwIfAborted, aborted. by rewrite H. Qed.

(** A request under a signal that fires at [a]. *)
Lemma fetch_fires {A} req sg s a (reply : Reply A) w :
  sg = Some s → firesAt s = Some a →
  fetch req sg reply w =
    if a <=? now w then (inl (reason s), w)
    else if a <=? arrival (now w) reply
         then (inl (reason s), at_time a (sent (now w) req w))
         else (outcome reply, at_time (arrival (now w) reply) (sent (now w) req w)).
Proof.
  intros -> H. unfold fetch, throwIfAborted, aborted. rewrite H. simpl.
  destruct (a <=? now w); [done|]. by destruct (a <=? arrival (now w) reply).
Qed.

Section ClientFacts.

Variable net : Network.
Variables deviceAuthId userCode : string.
Variables (intervalMs deadline : Z) (sg : option AbortSignal).

Local Notation loop := (poll_loop net deviceAuthId userCode intervalMs deadline sg).
Local Notation pstep := (pendingStep net deviceAuthId userCode intervalMs).
Local Notation prun := (pendingRun net deviceAuthId userCode intervalMs).

Lemma poll_loop_unfold fuel k w :
  loop (S fuel) k w =
    if negb (now w <? deadline) then Some (inl (Error timedOutMessage), w)
    else
      match throwIfAborted sg (now w) with
      | Some e => Some (inl e, w)
      | None =>
          match fetch (PollRequest deviceAuthId userCode) sg
                      (devicetoken net k) (sleep intervalMs w) with
          | (inl e, w2) => Some (inl e, w2)
          | (inr response, w2) =>
              match pollStep response with
              | Continue => loop fuel (S k) w2
              | Throw e => Some (inl e, w2)
              | Exchange authorizationCode codeVerifier =>
                  Some (exchangeDeviceCodeForTokens net authorizationCode codeVerifier w2)
              end
          end
      end.
Proof. reflexivity. Qed.

(** More fuel does not change a result. *)
Lemma poll_loop_more_fuel fuel fuel' k w r :
  loop fuel k w = Some r → (fuel ≤ fuel')%nat → loop fuel' k w = Some r.
Proof.
  revert fuel' k w. induction fuel as [|fuel IH]; intros fuel' k w H Hle; [done|].
  destruct fuel' as [|fuel']; [lia|].
  rewrite poll_loop_unfold in H |- *.
  destruct (negb (now w <? deadline)); [done|].
  destruct (throwIfAborted sg (now w)); [done|].
  destruct (fetch _ _ _ _) as [[e|response] w2]; [done|].
  destruct (pollStep response); [|done..].
  apply IH; [done|lia].
Qed.

Lemma fetch_now_ge {A} req (reply : Reply A) w :
  now w ≤ now (fetch req sg reply w).2.
Proof.
  unfold fetch. destruct (throwIfAborted sg (now w)) eqn:E; simpl; [lia|].
  pose proof (arrival_ge (now w) reply).
  destruct sg as [s|]; simpl; [|lia].
  destruct (aborted s (arrival (now w) reply)) eqn:Ea; simpl; [|lia].
  unfold throwIfAborted in E. destruct (aborted s (now w)) eqn:Eb; [done|].
  unfold aborted in *. destruct (firesAt s) as [a|]; simpl; [lia|lia].
Qed.

(** The loop ends: the iterations allowed by [enoughFuel] suffice. *)
Lemma poll_loop_terminates fuel k w :
  (enoughFuel deadline (now w) ≤ fuel)%nat → is_Some (loop fuel k w).
Proof.
  revert k w. induction fuel as [|fuel IH]; intros k w Hf.
  { unfold enoughFuel in Hf. lia. }
  rewrite poll_loop_unfold.
  destruct (now w <? deadline) eqn:Hd; simpl; [|done].
  destruct (throwIfAborted sg (now w)); [done|].
  pose proof (fetch_now_ge (PollRequest deviceAuthId userCode)
                (devicetoken net k) (sleep intervalMs w)) as Hn.
  destruct (fetch _ _ _ _) as [[e|response] w2]; [done|].
  destruct (pollStep response); [|done..].
  apply IH. simpl in Hn. pose proof (timerDelay_pos intervalMs).
  unfold enoughFuel in *. lia.
Qed.

Lemma pendingStep_now k w :
  now (pstep k w) = now w + timerDelay intervalMs + Z.max 0 (latency (devicetoken net k)).
Proof. reflexivity. Qed.

Lemma pendingStep_later k w : now w < now (pstep k w).
Proof. rewrite pendingStep_now. pose proof (timerDelay_pos intervalMs). lia. Qed.

(** The polling request of an iteration, when the signal does not cut
    it short: the iteration sleeps, sends, and is resumed with the reply. *)
Lemma poll_fetch_through k w :
  throwIfAborted sg (now (pstep k w)) = None →
  fetch (PollRequest deviceAuthId userCode) sg (devicetoken net k) (sleep intervalMs w)
  = (outcome (devicetoken net k), pstep k w).
Proof. intros H. rewrite fetch_through; [reflexivity|exact H]. Qed.

(** An iteration whose request is answered *pending* goes round. *)
Lemma poll_loop_pending fuel k w response :
  now w < deadline →
  throwIfAborted sg (now (pstep k w)) = None →
  outcome (devicetoken net k) = inr response →
  pending response = true →
  loop (S fuel) k w = loop fuel (S k) (pstep k w).
Proof.
  intros Hd Hs Ho Hp. rewrite poll_loop_unfold.
  replace (now w <? deadline) with true by (symmetry; apply Z.ltb_lt; lia). simpl.
  rewrite (throwIfAborted_mono sg (now w) (now (pstep k w)));
    [|pose proof (pendingStep_later k w); lia|done].
  rewrite poll_fetch_through, Ho by done.
  unfold pollStep. rewrite Hp. reflexivity.
Qed.

(** An iteration whose request is answered with anything else ends the
    call there, whatever fuel is left. *)
Lemma poll_loop_settles fuel k w response :
  now w < deadline →
  throwIfAborted sg (now (pstep k w)) = None →
  outcome (devicetoken net k) = inr response →
  pending response = false →
  loop (S fuel) k w =
    Some (match pollStep response with
          | Exchange authorizationCode codeVerifier =>
              exchangeDeviceCodeForTokens net authorizationCode codeVerifier (pstep k w)
          | Throw e => (inl e, pstep k w)
          | Continue => (inl (Error timedOutMessage), w)
          end)
  ∧ pollStep response ≠ Continue.
Proof.
  intros Hd Hs Ho Hp. rewrite poll_loop_unfold.
  replace (now w <? deadline) with true by (symmetry; apply Z.ltb_lt; lia). simpl.
  rewrite (throwIfAborted_mono sg (now w) (now (pstep k w)));
    [|pose proof (pendingStep_later k w); lia|done].
  rewrite poll_fetch_through, Ho by done.
  unfold pollStep. rewrite Hp.
  destruct (negb (ok response)); [done|].
  destruct (response_json response) as [e|v]; [done|].
  destruct (deviceTokenResponseSchema_parse v); done.
Qed.






(** Results do not depend on the fuel that produced them. *)
Lemma poll_loop_deterministic fuel fuel' k w r r' :
  loop fuel k w = Some r → loop fuel' k w = Some r' → r = r'.
Proof.
  intros H H'. destruct (Nat.le_ge_cases fuel fuel') as [Hle|Hle].
  - rewrite (poll_loop_more_fuel _ _ _ _ _ H Hle) in H'. congruence.
  - rewrite (poll_loop_more_fuel _ _ _ _ _ H' Hle) in H. congruence.
Qed.

(** As long as every reply that arrives before the signal fires says
    *pending*, the call ends in one of two ways: at a loop head reached
    at or after the deadline, with the time-out error, or rejected by
    the signal, with its reason. *)
Lemma poll_loop_pending_outcome fuel k w :
  (∀ i, now (prun i k w) < deadline →
        throwIfAborted sg (now (prun (S i) k w)) = None → answersPending net (k + i)) →
  (enoughFuel deadline (now w) ≤ fuel)%nat →
  ∃ r w', loop fuel k w = Some (r, w') ∧
    ((r = inl (Error timedOutMessage) ∧ deadline ≤ now w'
      ∧ (throwIfAborted sg (now w) = None → throwIfAborted sg (now w') = None)
      ∧ ∃ n, w' = prun n k w)
     ∨ (∃ e, r = inl e ∧ throwIfAborted sg (now w') = Some e)).
Proof.
  revert k w. induction fuel as [|fuel IH]; intros k w Hp Hf.
  { unfold enoughFuel in Hf. lia. }
  rewrite poll_loop_unfold.
  destruct (now w <? deadline) eqn:Hd; simpl.
  2:{ eexists _, _. split; [done|]. left. apply Z.ltb_ge in Hd.
      split; [done|]. split; [done|]. split; [done|]. by exists 0%nat. }
  apply Z.ltb_lt in Hd.
  destruct (throwIfAborted sg (now w)) as [e|] eqn:Ha.
  { eexists _, _. split; [done|]. right. by exists e. }
  destruct (throwIfAborted sg (now (pstep k w))) as [e|] eqn:Hb.
  - (* the signal fires during the sleep or while the request is in flight *)
    unfold fetch. simpl.
    destruct (throwIfAborted sg (now w + timerDelay intervalMs)) as [e'|] eqn:Hc.
    { eexists _, _. split; [done|]. right. by exists e'. }
    destruct sg as [s|]; [|done]. unfold throwIfAborted in Ha, Hb, Hc.
    change (arrival (now w + timerDelay intervalMs) (devicetoken net k))
      with (now (pstep k w)).
    destruct (aborted s (now (pstep k w))) eqn:Hab; [|done].
    eexists _, _. split; [done|]. right. exists (reason s). split; [done|].
    simpl. unfold aborted in *. destruct (firesAt s) as [a|]; [|done]. simpl.
    by rewrite Z.leb_refl.
  - (* the reply arrives first: it says pending *)
    destruct (Hp 0%nat Hd Hb) as (response & Ho & Hpe). rewrite Nat.add_0_r in Ho.
    rewrite poll_fetch_through, Ho by done. unfold pollStep. rewrite Hpe.
    destruct (IH (S k) (pstep k w)) as (r & w' & Hl & Hr).
    + intros i Hi Hi'. replace (S k + i)%nat with (k + S i)%nat by lia. by apply Hp.
    + pose proof (pendingStep_later k w). unfold enoughFuel in *. lia.
    + exists r, w'. split; [done|].
      destruct Hr as [(-> & Hdl & Hna & n & ->)|Hr]; [|by right].
      left. split; [done|]. split; [done|]. split; [auto|]. by exists (S n).
Qed.

(** Whatever the replies, once the signal has fired nothing more is
    sent; and unless a token exchange was already under way, a call
    that is still running when the signal fires is rejected with the
    signal's reason, at the latest when the timer it sleeps on fires. *)
Lemma poll_loop_signal s a fuel k w r w' :
  sg = Some s → firesAt s = Some a →
  now w < a →
  loop fuel k w = Some (r, w') →
  ∃ new, trace w' = trace w ++ new
    ∧ Forall (λ e, e.1 < a) new
    ∧ (a ≤ now w' → sentAt is_exchange new = [] →
       r = inl (reason s) ∧ now w' < a + timerDelay intervalMs).
Proof.
  intros Hsg Hfa. revert k w. induction fuel as [|fuel IH]; intros k w Hw H; [done|].
  rewrite poll_loop_unfold in H.
  destruct (now w <? deadline) eqn:Hd; simpl in H.
  2:{ injection H as <- <-. exists []. rewrite app_nil_r.
      split; [done|]. split; [constructor|]. intros ? _. lia. }
  rewrite (throwIfAborted_fires _ _ _ _ Hsg Hfa) in H.
  destruct (a <=? now w) eqn:E1; [lia|].
  rewrite (fetch_fires _ _ _ _ _ _ Hsg Hfa) in H. simpl in H.
  pose proof (timerDelay_pos intervalMs) as Hpos.
  destruct (a <=? now w + timerDelay intervalMs) eqn:E2.
  { injection H as <- <-. exists []. rewrite app_nil_r. simpl.
    split; [done|]. split; [constructor|]. intros _ _. split; [done|lia]. }
  apply Z.leb_gt in E2.
  set (t := now w + timerDelay intervalMs) in *.
  destruct (a <=? arrival t (devicetoken net k)) eqn:E3.
  { injection H as <- <-. eexists [_]. simpl. split; [done|].
    split; [by repeat constructor|]. intros _ _. split; [done|]. lia. }
  apply Z.leb_gt in E3.
  destruct (outcome (devicetoken net k)) as [e|response].
  { injection H as <- <-. eexists [_]. simpl. split; [done|].
    split; [by repeat constructor|]. lia. }
  destruct (pollStep response) as [|e|authorizationCode codeVerifier].
  - apply IH in H; [|simpl; lia].
    destruct H as (new & Htr & Hall & Hend). simpl in Htr.
    exists ((t, PollRequest deviceAuthId userCode) :: new).
    split; [by rewrite Htr, <- app_assoc|].
    split; [constructor; [done|done]|].
    intros Ha Hx. apply Hend; [done|]. exact Hx.
  - injection H as <- <-. eexists [_]. simpl. split; [done|].
    split; [by repeat constructor|]. lia.
  - unfold exchangeDeviceCodeForTokens, fetch in H. simpl in H.
    injection H as <- <-. simpl. eexists [_; _]. rewrite <- app_assoc. simpl.
    split; [done|]. split; [repeat constructor; simpl; lia|].
    intros _ Hx. discriminate Hx.
Qed.

End ClientFacts.

(** * The claims about the client *)

Lemma notEnabled_is_not_requestFailed response :
  requestFailedMessage response ≠ notEnabledMessage.
Proof. unfold requestFailedMessage, notEnabledMessage. intros H. discriminate H. Qed.

(** C5. [requestDeviceCode] sends one device-code request and never a
    polling one. When the endpoint answers within the 30 seconds
    allowed, the call fails with the "not enabled" error exactly when
    the status is 404; it fails with
    "Device code request failed: <status> <statusText>" for every other
    status outside 200..299; and for a status in 200..299 whose body is
    an object with string [device_auth_id] and [user_code] it returns
    these two together with the [interval], absent or a number. It
    returns a value only in that case. *)
Theorem requestDeviceCode_outcomes (net : Network) (w : World) (response : Response) :
  outcome (usercode net) = inr response →
  Z.max 0 (latency (usercode net)) < 30000 →
  let sentOne :=
    {| now := arrival (now w) (usercode net);
       trace := trace w ++ [(now w, DeviceCodeRequest OPENAI_CODEX_OAUTH_CONFIG.clientId)] |} in
  requestDeviceCode net w = (deviceCodeResult response, sentOne)
  ∧ sentAt is_poll (trace sentOne) = sentAt is_poll (trace w)
  ∧ (deviceCodeResult response
     = inl (Error "Device code authentication is not enabled for your account. Enable 'Device code authentication for Codex' in your ChatGPT security settings.")
     ↔ status response = 404)
  ∧ (status response ≠ 404 → ¬ (200 ≤ status response ≤ 299) →
     deviceCodeResult response
     = inl (Error ("Device code request failed: " +:+ pretty (status response)
                   +:+ " " +:+ statusText response)))
  ∧ (200 ≤ status response ≤ 299 →
     ∀ fields d u,
       body response = Some (JObject fields) →
       get "device_auth_id" fields = Some (JString d) →
       get "user_code" fields = Some (JString u) →
       (get "interval" fields = None →
        deviceCodeResult response
        = inr {| device_auth_id := d; user_code := u; interval := None |})
       ∧ (∀ n, get "interval" fields = Some (JNumber n) →
          deviceCodeResult response
          = inr {| device_auth_id := d; user_code := u; interval := Some n |}))
  ∧ (∀ r, deviceCodeResult response = inr r →
       200 ≤ status response ≤ 299
       ∧ ∃ fields,
           body response = Some (JObject fields)
           ∧ get "device_auth_id" fields = Some (JString (device_auth_id r))
           ∧ get "user_code" fields = Some (JString (user_code r))
           ∧ ((interval r = None ∧ get "interval" fields = None)
              ∨ ∃ n, interval r = Some n ∧ get "interval" fields = Some (JNumber n))).
Proof.
  intros Ho Hl sentOne.
  assert (Hmsg : notEnabledMessage
                 = "Device code authentication is not enabled for your account. Enable 'Device code authentication for Codex' in your ChatGPT security settings.")
    by reflexivity.
  assert (Hok : ok response = true ↔ 200 ≤ status response ≤ 299).
  { unfold ok. rewrite andb_true_iff, !Z.leb_le. done. }
  split.
  { unfold requestDeviceCode. rewrite fetch_through; [by rewrite Ho|].
    apply throwIfAborted_None_iff. intros s a [= <-] [= <-].
    unfold arrival. lia. }
  split.
  { unfold sentAt. simpl. rewrite filter_app. simpl.
    rewrite filter_cons_False by (simpl; done). by rewrite filter_nil, app_nil_r. }
  split.
  { rewrite <- Hmsg. unfold deviceCodeResult. split.
    - destruct (status response =? 404) eqn:E; [intros _; by apply Z.eqb_eq|].
      destruct (negb (ok response)).
      + intros H. exfalso.
        apply (notEnabled_is_not_requestFailed response). congruence.
      + unfold response_json. destruct (body response) as [v|]; [|done].
        unfold deviceCodeResponseSchema_parse.
        destruct v; try done.
        repeat case_match; done.
    - intros ->. reflexivity. }
  split.
  { intros Hs Hk. unfold deviceCodeResult.
    destruct (status response =? 404) eqn:E; [apply Z.eqb_eq in E; done|].
    destruct (ok response) eqn:Eok; [exfalso; by apply Hk, Hok|]. reflexivity. }
  split.
  { intros Hk fields d u Hb Hd Hu.
    assert (deviceCodeResult response = deviceCodeResponseSchema_parse (JObject fields)) as ->.
    { unfold deviceCodeResult, response_json.
      destruct (status response =? 404) eqn:E; [apply Z.eqb_eq in E; lia|].
      apply Hok in Hk. by rewrite Hk, Hb. }
    unfold deviceCodeResponseSchema_parse. rewrite Hd, Hu.
    split; [by intros ->|]. by intros n ->. }
  intros r. unfold deviceCodeResult, response_json.
  destruct (status response =? 404); [done|].
  destruct (ok response) eqn:Eok; [|done]. simpl.
  destruct (body response) as [[| | | | |fields]|]; try done.
  unfold deviceCodeResponseSchema_parse.
  destruct (get "device_auth_id" fields) as [[| | |d| |]|] eqn:Ed; try done.
  destruct (get "user_code" fields) as [[| | |u| |]|] eqn:Eu; try done.
  destruct (get "interval" fields) as [[| |n| | |]|] eqn:Ei; try done;
    intros [= <-]; (split; [by apply Hok|]); exists fields; simpl; eauto 10.
Qed.

Lemma requestDeviceCode_outcomes_witness :
  requestDeviceCode disabledNet epoch
  = (inl (Error "Device code authentication is not enabled for your account. Enable 'Device code authentication for Codex' in your ChatGPT security settings."),
     {| now := 120;
        trace := [(0, DeviceCodeRequest OPENAI_CODEX_OAUTH_CONFIG.clientId)] |})
  ∧ requestDeviceCode brokenNet epoch
    = (inl (Error "Device code request failed: 500 Internal Server Error"),
       {| now := 120;
          trace := [(0, DeviceCodeRequest OPENAI_CODEX_OAUTH_CONFIG.clientId)] |})
  ∧ requestDeviceCode pendingNet epoch
    = (inr {| device_auth_id := "d1"; user_code := "ABCD-EFGH"; interval := Some 5 |},
       {| now := 120;
          trace := [(0, DeviceCodeRequest OPENAI_CODEX_OAUTH_CONFIG.clientId)] |}).
Proof.
  split; [|split].
  - destruct (requestDeviceCode_outcomes disabledNet epoch notFound)
      as (H & _ & [_ Hne] & _); [reflexivity | vm_compute; reflexivity |].
    rewrite H, (Hne eq_refl). reflexivity.
  - destruct (requestDeviceCode_outcomes brokenNet epoch serverError)
      as (H & _ & _ & Hf & _); [reflexivity | vm_compute; reflexivity |].
    rewrite H, Hf; [reflexivity | discriminate | simpl; lia].
  - destruct (requestDeviceCode_outcomes pendingNet epoch (deviceCodeIssued 5))
      as (H & _ & _ & _ & Hs & _); [reflexivity | vm_compute; reflexivity |].
    destruct (Hs ltac:(simpl; lia) _ "d1" "ABCD-EFGH" eq_refl eq_refl eq_refl) as [_ Hn].
    rewrite H, (Hn 5 eq_refl). reflexivity.
Defined.

(** C4. In an iteration whose polling request is answered, the loop goes
    round exactly when the status is 403 or 404; any other answer ends
    the call in that iteration, and one outside 200..299 ends it with
    "Device token polling failed: <status>". While every answer is
    *pending* the call ends only with the time-out error, at or after
    the deadline, or with the reason of a signal that has fired. *)
Theorem poll_continues_exactly_on_pending (net : Network) (deviceAuthId userCode : string)
    (intervalMs deadline : Z) (sg : option AbortSignal)
    (fuel k : nat) (w : World) (response : Response) :
  let loop := poll_loop net deviceAuthId userCode intervalMs deadline sg in
  let w1 := pendingStep net deviceAuthId userCode intervalMs k w in
  now w < deadline →
  throwIfAborted sg (now w1) = None →
  outcome (devicetoken net k) = inr response →
  (pollStep response = Continue ↔ status response = 403 ∨ status response = 404)
  ∧ (status response = 403 ∨ status response = 404 →
     loop (S fuel) k w = loop fuel (S k) w1)
  ∧ (¬ (status response = 403 ∨ status response = 404) →
     ∃ r, loop (S fuel) k w = Some r ∧ loop 1%nat k w = Some r)
  ∧ (¬ (status response = 403 ∨ status response = 404) → ok response = false →
     loop (S fuel) k w = Some (inl (Error (pollingFailedMessage response)), w1))
  ∧ ((∀ i, answersPending net (k + i)) →
     ∀ fuel', (enoughFuel deadline (now w) ≤ fuel')%nat →
     ∃ r w', loop fuel' k w = Some (r, w')
       ∧ ((r = inl (Error timedOutMessage) ∧ deadline ≤ now w')
          ∨ (∃ e, r = inl e ∧ throwIfAborted sg (now w') = Some e))).
Proof.
  intros loop w1 Hd Hs Ho.
  assert (Hpend : pending response = true ↔ status response = 403 ∨ status response = 404).
  { unfold pending. rewrite orb_true_iff, !Z.eqb_eq. done. }
  split.
  { rewrite <- Hpend. unfold pollStep. destruct (pending response); [done|].
    split; [|done]. repeat case_match; done. }
  split.
  { intros H. apply Hpend in H. by apply (poll_loop_pending net) with response. }
  split.
  { intros H. assert (pending response = false) as Hf.
    { destruct (pending response); [|done]. exfalso. apply H, Hpend. done. }
    destruct (poll_loop_settles net deviceAuthId userCode intervalMs deadline sg
                fuel k w response Hd Hs Ho Hf) as [H1 _].
    destruct (poll_loop_settles net deviceAuthId userCode intervalMs deadline sg
                0%nat k w response Hd Hs Ho Hf) as [H2 _].
    eexists. split; [exact H1|exact H2]. }
  split.
  { intros H Hk. assert (pending response = false) as Hf.
    { destruct (pending response); [|done]. exfalso. apply H, Hpend. done. }
    destruct (poll_loop_settles net deviceAuthId userCode intervalMs deadline sg
                fuel k w response Hd Hs Ho Hf) as [H1 _].
    unfold loop. rewrite H1. unfold pollStep. by rewrite Hf, Hk. }
  intros Hall fuel' Hf.
  destruct (poll_loop_pending_outcome net deviceAuthId userCode intervalMs deadline sg
              fuel' k w) as (r & w' & Hl & Hr); [by intros i _ _|done|].
  exists r, w'. split; [done|].
  destruct Hr as [(-> & Hdl & _)|Hr]; [left; done|right; done].
Qed.

Lemma poll_continues_exactly_on_pending_witness :
  poll_loop pendingNet "d1" "ABCD-EFGH" 5000 900000 None 3 0 epoch
  = poll_loop pendingNet "d1" "ABCD-EFGH" 5000 900000 None 2 1
      {| now := 5080; trace := [(5000, PollRequest "d1" "ABCD-EFGH")] |}.
Proof.
  destruct (poll_continues_exactly_on_pending pendingNet "d1" "ABCD-EFGH"
              5000 900000 None 2 0 epoch notFound) as (_ & H & _);
    [reflexivity | reflexivity | reflexivity |].
  exact (H (or_intror eq_refl)).
Defined.




(** C6, as the code has it. Take a call in which every polling request
    of an iteration entered before the deadline, if it is answered
    before the signal fires, is answered *pending*. It ends,
    with one outcome whatever the fuel: the time-out error, raised at a
    loop head reached at or after the deadline (15 minutes after the
    call by default), when the signal never fires; the signal's reason
    when the signal fires during the call and no later than the
    deadline; and in every case one of the two. *)
Theorem poll_expires_or_is_cancelled (net : Network) (deviceAuthId userCode : string)
    (options : option (PollOptions AbortSignal)) (w : World) :
  let sg := options ≫= signal in
  let intervalMs := effectiveIntervalMs options in
  let deadline := now w + effectiveTimeoutMs options in
  (∀ i, now (pendingRun net deviceAuthId userCode intervalMs i 0 w) < deadline →
        throwIfAborted sg (now (pendingRun net deviceAuthId userCode intervalMs (S i) 0 w)) = None →
        answersPending net i) →
  ∃ r w',
    (∀ fuel, (enoughFuel deadline (now w) ≤ fuel)%nat →
       pollForDeviceAuthorization net deviceAuthId userCode options fuel w = Some (r, w'))
    ∧ (∀ fuel r', pollForDeviceAuthorization net deviceAuthId userCode options fuel w = Some r' →
       r' = (r, w'))
    ∧ ((∀ t, throwIfAborted sg t = None) →
       r = inl (Error timedOutMessage) ∧ deadline ≤ now w')
    ∧ (∀ s a, sg = Some s → firesAt s = Some a → now w < a → a ≤ deadline →
       r = inl (reason s))
    ∧ ((r = inl (Error timedOutMessage) ∧ deadline ≤ now w')
       ∨ (∃ e, r = inl e ∧ throwIfAborted sg (now w') = Some e))
    ∧ effectiveTimeoutMs (@None (PollOptions AbortSignal)) = 15 * 60 * 1000.
Proof.
  intros sg intervalMs deadline Hp.
  destruct (poll_loop_pending_outcome net deviceAuthId userCode intervalMs deadline sg
              (enoughFuel deadline (now w)) 0 w) as (r & w' & Hl & Hr); [done|done|].
  exists r, w'.
  assert (H1 : ∀ fuel, (enoughFuel deadline (now w) ≤ fuel)%nat →
            pollForDeviceAuthorization net deviceAuthId userCode options fuel w = Some (r, w')).
  { intros fuel Hf. unfold pollForDeviceAuthorization.
    by apply (poll_loop_more_fuel _ _ _ _ _ _ _ _ _ _ _ Hl). }
  split; [done|]. split.
  { intros fuel r' H'. unfold pollForDeviceAuthorization in H'.
    symmetry. eapply poll_loop_deterministic; [exact Hl|exact H']. }
  split.
  { intros Hn. destruct Hr as [(-> & Hd & _)|(e & _ & He)]; [done|].
    rewrite Hn in He. done. }
  split.
  { intros s a Hs Ha Hw Had.
    destruct Hr as [(-> & Hd & Hna & _)|(e & -> & He)].
    - exfalso.
      assert (throwIfAborted sg (now w') = None) as Hn.
      { apply Hna. rewrite (throwIfAborted_fires _ _ _ _ Hs Ha).
        destruct (a <=? now w) eqn:E; [lia|done]. }
      rewrite (throwIfAborted_fires _ _ _ _ Hs Ha) in Hn.
      destruct (a <=? now w') eqn:E; [done|lia].
    - rewrite (throwIfAborted_fires _ _ _ _ Hs Ha) in He.
      destruct (a <=? now w'); [|done]. congruence. }
  split; [|reflexivity].
  destruct Hr as [(-> & Hd & _)|Hr]; [left; done|right; done].
Qed.

Lemma pendingNet_answersPending i : answersPending pendingNet i.
Proof.
  unfold answersPending. simpl.
  destruct (Nat.even i); [exists notFound|exists forbidden]; split; reflexivity.
Defined.

Lemma poll_expires_or_is_cancelled_witness :
  ∃ r w',
    pollForDeviceAuthorization pendingNet "d1" "ABCD-EFGH"
      (Some {| intervalMs := None; timeoutMs := Some 12000; signal := None |})
      (enoughFuel 12000 0) epoch
    = Some (r, w')
    ∧ r = inl (Error timedOutMessage) ∧ 12000 ≤ now w'.
Proof.
  destruct (poll_expires_or_is_cancelled pendingNet "d1" "ABCD-EFGH"
              (Some {| intervalMs := None; timeoutMs := Some 12000; signal := None |}) epoch)
    as (r & w' & H1 & _ & H3 & _).
  - intros i _ _. apply pendingNet_answersPending.
  - exists r, w'. split.
    + apply H1. apply le_n.
    + apply H3. intros t. reflexivity.
Defined.

(** With the defaults: the 178th iteration is entered at 899160 ms,
    before the deadline of 900000; its request leaves at 904160 and the
    payload arrives at 904240, after the fifteen minutes, and the call
    ends with credentials. With a one-second timeout the first iteration
    already sleeps past the deadline and polls. And a provider that
    fails ends the call with that failure. *)
Lemma poll_after_the_deadline :
  (∃ w', pollForDeviceAuthorization lateNet "d1" "ABCD-EFGH" None 178 epoch
         = Some (inr someCredentials, w')
       ∧ now w' = 904440
       ∧ sentAt is_exchange (trace w') = [904240]
       ∧ last (sentAt is_poll (trace w')) = Some 904160)
  ∧ pollForDeviceAuthorization promptNet "d1" "ABCD-EFGH"
      (Some {| intervalMs := None; timeoutMs := Some 1000; signal := None |}) 1 epoch
    = Some (inr someCredentials,
            {| now := 5000;
               trace := [(5000, PollRequest "d1" "ABCD-EFGH");
                         (5000, ExchangeRequest (exchangeBody "ac1" "cv"))] |})
  ∧ pollForDeviceAuthorization failingNet "d1" "ABCD-EFGH" None 3 epoch
    = Some (inl (Error "Device token polling failed: 500"),
            {| now := 15000;
               trace := [(5000, PollRequest "d1" "ABCD-EFGH");
                         (10000, PollRequest "d1" "ABCD-EFGH");
                         (15000, PollRequest "d1" "ABCD-EFGH")] |}).
Proof.
  split; [|split; reflexivity].
  eexists. split; [vm_compute; reflexivity|]. repeat split; vm_compute; reflexivity.
Qed.

(** C1, as the code has it. Let the signal fire at [a] while the call is
    running. Every request the call sends, polling or exchange, leaves
    before [a]. Unless a token exchange had been sent by then, the call
    ends with the signal's reason, and does so less than one timer delay
    after [a]: when the timer of the sleep it is in fires, or at [a]
    itself when a polling request is in flight. *)
Theorem poll_cancellation (net : Network) (deviceAuthId userCode : string)
    (options : option (PollOptions AbortSignal)) (s : AbortSignal) (a : Z) (w : World) :
  options ≫= signal = Some s →
  firesAt s = Some a →
  now w < a →
  ∃ r w' new,
    (∀ fuel, (enoughFuel (now w + effectiveTimeoutMs options) (now w) ≤ fuel)%nat →
       pollForDeviceAuthorization net deviceAuthId userCode options fuel w = Some (r, w'))
    ∧ trace w' = trace w ++ new
    ∧ Forall (λ e, e.1 < a) new
    ∧ (a ≤ now w' → sentAt is_exchange new = [] →
       r = inl (reason s) ∧ now w' < a + timerDelay (effectiveIntervalMs options)).
Proof.
  intros Hs Ha Hw.
  destruct (poll_loop_terminates net deviceAuthId userCode (effectiveIntervalMs options)
              (now w + effectiveTimeoutMs options) (options ≫= signal)
              (enoughFuel (now w + effectiveTimeoutMs options) (now w)) 0 w)
    as [[r w'] Hl]; [done|].
  destruct (poll_loop_signal net deviceAuthId userCode _ _ _ s a _ _ _ _ _ Hs Ha Hw Hl)
    as (new & Htr & Hall & Hend).
  exists r, w', new. split; [|done].
  intros fuel Hf. unfold pollForDeviceAuthorization.
  by apply (poll_loop_more_fuel _ _ _ _ _ _ _ _ _ _ _ Hl).
Qed.

Lemma poll_cancellation_witness :
  ∃ r w' new,
    pollForDeviceAuthorization pendingNet "d1" "ABCD-EFGH" (cancelledAt 7000 None)
      (enoughFuel 900000 0) epoch
    = Some (r, w')
    ∧ trace w' = [] ++ new
    ∧ Forall (λ e, e.1 < 7000) new
    ∧ (7000 ≤ now w' → sentAt is_exchange new = [] →
       r = inl AbortError ∧ now w' < 7000 + 5000).
Proof.
  destruct (poll_cancellation pendingNet "d1" "ABCD-EFGH" (cancelledAt 7000 None)
              (controllerSignal (Some 7000)) 7000 epoch)
    as (r & w' & new & H1 & H2 & H3 & H4); [reflexivity | reflexivity | simpl; lia |].
  exists r, w', new. split; [|done].
  apply H1. apply le_n.
Defined.

(** The signal fires a millisecond into the first sleep. With the
    default interval the call ends 4999 ms later, with a one-minute
    interval 59999 ms later: the delay is the rest of the interval. *)
Lemma cancellation_waits_for_the_timer :
  pollForDeviceAuthorization pendingNet "d1" "ABCD-EFGH" (cancelledAt 1 None) 1 epoch
  = Some (inl AbortError, {| now := 5000; trace := [] |})
  ∧ pollForDeviceAuthorization pendingNet "d1" "ABCD-EFGH" (cancelledAt 1 (Some 60000)) 1 epoch
  = Some (inl AbortError, {| now := 60000; trace := [] |}).
Proof. split; reflexivity. Qed.

(** * Facts about the session manager *)

Lemma run_snoc l a s : run (l ++ [a]) s = step (run l s) a.
Proof. unfold run. apply foldl_snoc. Qed.

Lemma resume_lookup i c s :
  (i < length (calls s))%nat → calls (resume i c s) !! i = Some c.
Proof. intros H. simpl. by apply list_lookup_insert_eq. Qed.

Lemma cancel_frame s :
  deviceCodeAbortController (cancelDeviceCodeFlow s) = None
  ∧ calls (cancelDeviceCodeFlow s) = calls s
  ∧ credentialStore (cancelDeviceCodeFlow s) = credentialStore s
  ∧ requests (cancelDeviceCodeFlow s) = requests s
  ∧ length (controllers (cancelDeviceCodeFlow s)) = length (controllers s).
Proof.
  unfold cancelDeviceCodeFlow.
  destruct (deviceCodeAbortController s); simpl; by rewrite ?length_insert.
Qed.

Lemma start_frame s :
  deviceCodeAbortController (startDeviceCodeFlow s) = Some (length (controllers s))
  ∧ controllers (startDeviceCodeFlow s) = controllers (cancelDeviceCodeFlow s) ++ [false]
  ∧ calls (startDeviceCodeFlow s) = calls s ++ [StartCall None]
  ∧ credentialStore (startDeviceCodeFlow s) = credentialStore s
  ∧ requests (startDeviceCodeFlow s)
    = requests s ++ [DeviceCodeRequest OPENAI_CODEX_OAUTH_CONFIG.clientId].
Proof.
  unfold startDeviceCodeFlow, cancelDeviceCodeFlow.
  destruct (deviceCodeAbortController s); simpl; by rewrite ?length_insert.
Qed.

(** A step leaves the persisted credentials alone unless it is the
    settling of [saveCredentials] in some call. *)
Lemma step_store s a :
  credentialStore (step s a) = credentialStore s
  ∨ ∃ i d u o c,
      a = SaveSettles i
      ∧ calls s !! i = Some (WaitCall d u o (AwaitSave c))
      ∧ step s a = resume i (WaitCall d u o (Settled (inr c)))
                     (set_controller None (saveCredentials c s)).
Proof.
  destruct a as [|d u| |i r|i|i r expired|i r|i]; cbn [step].
  - left. apply start_frame.
  - left. unfold waitForDeviceAuthorization. by case_match.
  - left. apply cancel_frame.
  - left. unfold deviceCodeSettles. by repeat case_match.
  - left. unfold timerFires. by repeat case_match.
  - left. unfold pollSettles. by repeat case_match.
  - left. unfold exchangeSettles. by repeat case_match.
  - unfold saveSettles.
    destruct (calls s !! i) as [[?|d u o [| | |c|?]]|] eqn:E; try by left.
    right. by exists i, d, u, o, c.
Qed.

(** A call that has settled stays as it is. *)
Lemma settled_stable s a i d u o r :
  calls s !! i = Some (WaitCall d u o (Settled r)) →
  calls (step s a) !! i = Some (WaitCall d u o (Settled r)).
Proof.
  intros H. pose proof (lookup_lt_Some _ _ _ H) as Hlt.
  assert (Hins : ∀ j c (s' : Session), calls s' = calls s → j ≠ i →
            calls (resume j c s') !! i = Some (WaitCall d u o (Settled r))).
  { intros j c s' Hs' Hne. simpl. rewrite Hs'. by rewrite list_lookup_insert_ne. }
  destruct a as [|d' u'| |j r'|j|j r' expired|j r'|j]; cbn [step].
  - destruct (start_frame s) as (_ & _ & -> & _). by rewrite lookup_app_l.
  - unfold waitForDeviceAuthorization. case_match; simpl; [|done]. by rewrite lookup_app_l.
  - destruct (cancel_frame s) as (_ & -> & _). done.
  - unfold deviceCodeSettles.
    destruct (calls s !! j) as [[[?|]|]|] eqn:E; try done.
    apply Hins; [done|congruence].
  - unfold timerFires.
    destruct (calls s !! j) as [[?|? ? ? [| | | |]]|] eqn:E; try done.
    case_match; (apply Hins; [done|congruence]).
  - unfold pollSettles.
    destruct (calls s !! j) as [[?|? ? ? [| | | |]]|] eqn:E; try done.
    repeat case_match; (apply Hins; [done|congruence]).
  - unfold exchangeSettles.
    destruct (calls s !! j) as [[?|? ? ? [| | | |]]|] eqn:E; try done.
    case_match; (apply Hins; [done|congruence]).
  - unfold saveSettles.
    destruct (calls s !! j) as [[?|? ? ? [| | | |]]|] eqn:E; try done.
    apply Hins; [done|congruence].
Qed.

(** The step in which a call settles with an error touches neither the
    manager's controller nor the persisted credentials. *)
Lemma error_settles_frame s a i d u o e :
  calls (step s a) !! i = Some (WaitCall d u o (Settled (inl e))) →
  calls s !! i ≠ calls (step s a) !! i →
  deviceCodeAbortController (step s a) = deviceCodeAbortController s
  ∧ credentialStore (step s a) = credentialStore s.
Proof.
  destruct a as [|d' u'| |j r'|j|j r' expired|j r'|j]; cbn [step]; intros H Hne.
  - exfalso. destruct (start_frame s) as (_ & _ & Hc & _). rewrite Hc in H, Hne.
    apply lookup_snoc_Some in H as [[Hlt H]|[_ H]]; [|done].
    apply Hne. by rewrite lookup_app_l.
  - unfold waitForDeviceAuthorization. by case_match.
  - exfalso. apply Hne. destruct (cancel_frame s) as (_ & -> & _). done.
  - unfold deviceCodeSettles. by repeat case_match.
  - unfold timerFires. by repeat case_match.
  - unfold pollSettles. by repeat case_match.
  - unfold exchangeSettles. by repeat case_match.
  - unfold saveSettles in *.
    destruct (calls s !! j) as [[?|? ? ? [| | |c|?]]|] eqn:E; try done.
    exfalso. simpl in H, Hne.
    apply list_lookup_insert_Some in H as [(-> & H & _)|(Hji & H)]; [done|].
    apply Hne. by rewrite list_lookup_insert_ne.
Qed.

(** The manager's field is only ever set by [startDeviceCodeFlow]. *)
Lemma controller_needs_start l :
  CallStart ∉ l → deviceCodeAbortController (run l initial) = None.
Proof.
  induction l as [|a l IH] using rev_ind; [done|].
  intros Hn. rewrite run_snoc.
  assert (deviceCodeAbortController (run l initial) = None) as Hl.
  { apply IH. intros ?. apply Hn. apply elem_of_app. by left. }
  destruct a as [|d u| |i r|i|i r expired|i r|i]; cbn [step].
  - exfalso. apply Hn. apply elem_of_app. right. by apply list_elem_of_singleton.
  - unfold waitForDeviceAuthorization. by rewrite Hl.
  - apply cancel_frame.
  - unfold deviceCodeSettles. by repeat case_match.
  - unfold timerFires. by repeat case_match.
  - unfold pollSettles. by repeat case_match.
  - unfold exchangeSettles. by repeat case_match.
  - unfold saveSettles. by repeat case_match.
Qed.

(** * The claims about the session manager *)

(** C7. The persisted credentials change only in the step in which
    [saveCredentials] settles inside a call, which is the step in which
    that call returns them. The step in which a call ends with an error,
    be it the time-out, the abort, a failed poll or a failed or malformed
    token exchange, leaves them as they were. Hence, after any run, they
    are what they were before it or what some call returned. *)
Theorem credentials_persisted_only_on_success :
  (∀ s a, credentialStore (step s a) ≠ credentialStore s →
     ∃ i d u o c,
       a = SaveSettles i
       ∧ calls s !! i = Some (WaitCall d u o (AwaitSave c))
       ∧ calls (step s a) !! i = Some (WaitCall d u o (Settled (inr c)))
       ∧ credentialStore (step s a) = Some c)
  ∧ (∀ s a i d u o e,
       calls (step s a) !! i = Some (WaitCall d u o (Settled (inl e))) →
       calls s !! i ≠ calls (step s a) !! i →
       credentialStore (step s a) = credentialStore s)
  ∧ (∀ s i e, credentialStore (exchangeSettles i (inl e) s) = credentialStore s)
  ∧ (∀ s0 l,
       credentialStore (run l s0) = credentialStore s0
       ∨ ∃ i d u o c,
           credentialStore (run l s0) = Some c
           ∧ calls (run l s0) !! i = Some (WaitCall d u o (Settled (inr c)))).
Proof.
  assert (Hstep : ∀ s a,
            credentialStore (step s a) = credentialStore s
            ∨ ∃ i d u o c,
                a = SaveSettles i
                ∧ calls s !! i = Some (WaitCall d u o (AwaitSave c))
                ∧ calls (step s a) !! i = Some (WaitCall d u o (Settled (inr c)))
                ∧ credentialStore (step s a) = Some c).
  { intros s a. destruct (step_store s a) as [H|(i & d & u & o & c & -> & Hc & ->)];
      [by left|right].
    exists i, d, u, o, c. split; [done|]. split; [done|]. split; [|done].
    apply resume_lookup. by apply lookup_lt_Some in Hc. }
  split.
  { intros s a Hne. destruct (Hstep s a) as [H|H]; [done|exact H]. }
  split.
  { intros s a i d u o e H Hne. by apply (error_settles_frame s a i d u o e). }
  split.
  { intros s i e. unfold exchangeSettles. by repeat case_match. }
  intros s0 l. induction l as [|a l IH] using rev_ind; [by left|].
  rewrite run_snoc.
  destruct (Hstep (run l s0) a) as [H|(i & d & u & o & c & _ & _ & Hc & Hs)].
  - rewrite H. destruct IH as [IH|(i & d & u & o & c & Hs & Hc)]; [by left|right].
    exists i, d, u, o, c. split; [done|]. by apply settled_stable.
  - right. by exists i, d, u, o, c.
Qed.

Lemma credentials_persisted_only_on_success_witness :
  credentialStore (run signInSchedule initial) = Some someCredentials
  ∧ credentialStore (run failedSchedule initial) = None
  ∧ ∃ i d u o c,
      credentialStore (run signInSchedule initial) = Some c
      ∧ calls (run signInSchedule initial) !! i = Some (WaitCall d u o (Settled (inr c))).
Proof.
  split; [reflexivity|]. split; [reflexivity|].
  destruct credentials_persisted_only_on_success as (_ & _ & _ & H).
  destruct (H initial signInSchedule) as [H'|H']; [discriminate H'|exact H'].
Defined.

(** C10, as the code has it. [waitForDeviceAuthorization] rejects at
    once with "No pending device code flow" exactly when no controller
    is stored, and then changes nothing: no request is sent and nothing
    is saved. No controller is stored before the first
    [startDeviceCodeFlow], after [cancelDeviceCodeFlow], and after a wait
    has returned credentials. A start whose request was refused and a
    wait that ended with an error leave the controller stored, and with
    a controller stored the wait is accepted. *)
Theorem wait_without_pending_flow (deviceAuthId userCode : string) (s : Session) :
  ((waitForDeviceAuthorization deviceAuthId userCode s).1
   = Some (Error "No pending device code flow")
   ↔ deviceCodeAbortController s = None)
  ∧ (deviceCodeAbortController s = None →
     waitForDeviceAuthorization deviceAuthId userCode s
     = (Some (Error "No pending device code flow"), s)
     ∧ requests (step s (CallWait deviceAuthId userCode)) = requests s
     ∧ credentialStore (step s (CallWait deviceAuthId userCode)) = credentialStore s
     ∧ calls (step s (CallWait deviceAuthId userCode)) = calls s)
  ∧ (∀ l, CallStart ∉ l → deviceCodeAbortController (run l initial) = None)
  ∧ (∀ s', deviceCodeAbortController (cancelDeviceCodeFlow s') = None)
  ∧ (∀ s' i d u o c, calls s' !! i = Some (WaitCall d u o (AwaitSave c)) →
       deviceCodeAbortController (saveSettles i s') = None)
  ∧ (∀ c, deviceCodeAbortController s = Some c →
       ∃ pc, waitForDeviceAuthorization deviceAuthId userCode s
             = (None,
                set_calls (calls s ++ [WaitCall deviceAuthId userCode (waitOptions c) pc]) s))
  ∧ (∀ s' a i d u o e,
       calls (step s' a) !! i = Some (WaitCall d u o (Settled (inl e))) →
       calls s' !! i ≠ calls (step s' a) !! i →
       deviceCodeAbortController (step s' a) = deviceCodeAbortController s')
  ∧ (∀ s' i r,
       deviceCodeAbortController (deviceCodeSettles i r s') = deviceCodeAbortController s').
Proof.
  assert (Hnone : deviceCodeAbortController s = None →
            waitForDeviceAuthorization deviceAuthId userCode s
            = (Some (Error "No pending device code flow"), s)).
  { intros H. unfold waitForDeviceAuthorization. by rewrite H. }
  assert (Hsome : ∀ c, deviceCodeAbortController s = Some c →
            ∃ pc, waitForDeviceAuthorization deviceAuthId userCode s
                  = (None,
                     set_calls (calls s ++ [WaitCall deviceAuthId userCode (waitOptions c) pc]) s)).
  { intros c H. unfold waitForDeviceAuthorization. rewrite H. by eexists. }
  split.
  { split.
    - destruct (deviceCodeAbortController s) as [c|] eqn:E; [|done].
      destruct (Hsome c eq_refl) as [pc ->]. done.
    - intros H. by rewrite (Hnone H). }
  split.
  { intros H. cbn [step]. rewrite (Hnone H). done. }
  split; [apply controller_needs_start|].
  split; [intros s'; apply cancel_frame|].
  split.
  { intros s' i d u o c Hc. unfold saveSettles. by rewrite Hc. }
  split; [exact Hsome|].
  split.
  { intros s' a i d u o e H Hne. by apply (error_settles_frame s' a i d u o e). }
  intros s' i r. unfold deviceCodeSettles. by repeat case_match.
Qed.

Lemma wait_without_pending_flow_witness :
  waitForDeviceAuthorization "d1" "ABCD-EFGH" (run signInSchedule initial)
  = (Some (Error "No pending device code flow"), run signInSchedule initial).
Proof.
  destruct (wait_without_pending_flow "d1" "ABCD-EFGH" (run signInSchedule initial))
    as (_ & H & _).
  destruct (H eq_refl) as (H' & _). exact H'.
Defined.

(** The wait of [failedSchedule] has completed with the provider's
    failure, and the start of [refusedSchedule] with the "not enabled"
    error. In both sessions the controller is still stored: a wait is
    accepted, and when its timer fires it sends a polling request. *)
Lemma wait_after_failure_polls_again :
  calls (run failedSchedule initial) !! 1%nat
  = Some (WaitCall "d1" "ABCD-EFGH" (waitOptions 0%nat)
            (Settled (inl (Error "Device token polling failed: 500"))))
  ∧ (waitForDeviceAuthorization "d1" "ABCD-EFGH" (run failedSchedule initial)).1 = None
  ∧ requests (run (failedSchedule ++ [CallWait "d1" "ABCD-EFGH"; TimerFires 2]) initial)
    = requests (run failedSchedule initial) ++ [PollRequest "d1" "ABCD-EFGH"]
  ∧ calls (run refusedSchedule initial) !! 0%nat
    = Some (StartCall (Some (inl (Error notEnabledMessage))))
  ∧ (waitForDeviceAuthorization "d1" "ABCD-EFGH" (run refusedSchedule initial)).1 = None
  ∧ requests (run (refusedSchedule ++ [CallWait "d1" "ABCD-EFGH"; TimerFires 1]) initial)
    = requests (run refusedSchedule initial) ++ [PollRequest "d1" "ABCD-EFGH"].
Proof. repeat split; reflexivity. Qed.

(** C9, as the code has it. Cancelling twice is cancelling once, and
    cancelling while no controller is stored (before the first start,
    after a cancel, after a wait that returned credentials) changes
    nothing. A wait that ends with an error leaves the controller
    stored; cancelling then aborts that controller and clears the
    field. *)
Theorem cancel_is_idempotent :
  (∀ s, cancelDeviceCodeFlow (cancelDeviceCodeFlow s) = cancelDeviceCodeFlow s)
  ∧ (∀ s, deviceCodeAbortController s = None → cancelDeviceCodeFlow s = s)
  ∧ deviceCodeAbortController initial = None
  ∧ (∀ s, deviceCodeAbortController (cancelDeviceCodeFlow s) = None)
  ∧ (∀ s i d u o c, calls s !! i = Some (WaitCall d u o (AwaitSave c)) →
       deviceCodeAbortController (saveSettles i s) = None)
  ∧ (∀ s a i d u o e,
       calls (step s a) !! i = Some (WaitCall d u o (Settled (inl e))) →
       calls s !! i ≠ calls (step s a) !! i →
       deviceCodeAbortController (step s a) = deviceCodeAbortController s)
  ∧ (∀ s c, deviceCodeAbortController s = Some c →
       cancelDeviceCodeFlow s = set_controller None (abort c s)).
Proof.
  assert (Hnone : ∀ s, deviceCodeAbortController s = None → cancelDeviceCodeFlow s = s).
  { intros [f h l st rq] H. simpl in H. subst f. reflexivity. }
  split.
  { intros s. apply Hnone. apply cancel_frame. }
  split; [exact Hnone|]. split; [reflexivity|].
  split; [intros s; apply cancel_frame|].
  split.
  { intros s i d u o c Hc. unfold saveSettles. by rewrite Hc. }
  split.
  { intros s a i d u o e H Hne. by apply (error_settles_frame s a i d u o e). }
  intros s c H. unfold cancelDeviceCodeFlow. by rewrite H.
Qed.

(** The wait of [failedSchedule] has ended with the provider's failure;
    the controller is still stored, and cancelling changes the session:
    the controller is aborted and the field cleared, so that a wait that
    would have polled again is now rejected. *)
Lemma cancel_after_failure_changes_the_session :
  let s := run failedSchedule initial in
  calls s !! 1%nat
  = Some (WaitCall "d1" "ABCD-EFGH" (waitOptions 0%nat)
            (Settled (inl (Error "Device token polling failed: 500"))))
  ∧ deviceCodeAbortController s = Some 0%nat
  ∧ controllers s = [false]
  ∧ deviceCodeAbortController (cancelDeviceCodeFlow s) = None
  ∧ controllers (cancelDeviceCodeFlow s) = [true]
  ∧ cancelDeviceCodeFlow s ≠ s
  ∧ (waitForDeviceAuthorization "d1" "ABCD-EFGH" s).1 = None
  ∧ (waitForDeviceAuthorization "d1" "ABCD-EFGH" (cancelDeviceCodeFlow s)).1
    = Some (Error "No pending device code flow").
Proof. cbv zeta. repeat split; try reflexivity. intros H. discriminate H. Qed.

(** C8, on [restartSchedule]: [startDeviceCodeFlow] does abort the
    controller it finds stored before it sends the device-code request,
    but the first wait, completing after the second start, clears the
    field that by then holds the second controller. The third start
    finds nothing to abort, and the second and third waits poll side by
    side, each with a signal that has not been aborted. *)
Theorem restart_leaves_two_polls_running :
  (∀ s c, deviceCodeAbortController s = Some c → (c < length (controllers s))%nat →
     signalAborted (startDeviceCodeFlow s) c = true
     ∧ requests (startDeviceCodeFlow s)
       = requests s ++ [DeviceCodeRequest OPENAI_CODEX_OAUTH_CONFIG.clientId])
  ∧ runningPolls (run restartSchedule initial)
    = [WaitCall "d2" "BBBB-BBBB" (waitOptions 1%nat) AwaitPoll;
       WaitCall "d3" "CCCC-CCCC" (waitOptions 2%nat) AwaitPoll]
  ∧ controllers (run restartSchedule initial) = [true; false; false]
  ∧ deviceCodeAbortController (run restartSchedule initial) = Some 2%nat
  ∧ requests (run restartSchedule initial)
    = [DeviceCodeRequest OPENAI_CODEX_OAUTH_CONFIG.clientId;
       PollRequest "d1" "AAAA-AAAA";
       ExchangeRequest (exchangeBody "ac1" "cv");
       DeviceCodeRequest OPENAI_CODEX_OAUTH_CONFIG.clientId;
       DeviceCodeRequest OPENAI_CODEX_OAUTH_CONFIG.clientId;
       PollRequest "d2" "BBBB-BBBB";
       PollRequest "d3" "CCCC-CCCC"].
Proof.
  split; [|repeat split; reflexivity].
  intros s c H Hlt. split; [|apply start_frame].
  unfold signalAborted, startDeviceCodeFlow, cancelDeviceCodeFlow. rewrite H. simpl.
  rewrite lookup_app_l by (by rewrite length_insert).
  by rewrite list_lookup_insert_eq.
Qed.

(** * The claim about intervals and timeouts *)

Lemma sentAt_app p l1 l2 : sentAt p (l1 ++ l2) = sentAt p l1 ++ sentAt p l2.
Proof. unfold sentAt. by rewrite filter_app, fmap_app. Qed.





(** * Further properties of the code *)

(** ** Remote environments *)

Lemma truthy_true v : truthy v = true ↔ ∃ s, v = Some s ∧ s ≠ "".
Proof.
  unfold truthy. destruct v as [s|].
  - rewrite negb_true_iff. split.
    + intros H. exists s. split; [done|]. intros ->. done.
    + intros (s' & [= <-] & Hne). by apply String.eqb_neq.
  - split; [done|]. by intros (s & ? & _).
Qed.

(** X1. [isRemoteEnvironment] holds exactly when one of its six
    variables is set to a non-empty string: a variable set to the empty
    string counts as unset, and no other variable matters. *)
Theorem isRemoteEnvironment_spec (env : gmap string string) :
  (isRemoteEnvironment env = true
   ↔ ∃ k v, k ∈ remoteIndicators ∧ env !! k = Some v ∧ v ≠ "")
  ∧ (∀ k v, k ∉ remoteIndicators →
       isRemoteEnvironment (<[k:=v]> env) = isRemoteEnvironment env)
  ∧ (∀ k, isRemoteEnvironment (<[k:=""]> env) = isRemoteEnvironment (delete k env))
  ∧ isRemoteEnvironment (∅ : gmap string string) = false.
Proof.
  split.
  { unfold isRemoteEnvironment, remoteIndicators.
    rewrite !orb_true_iff, !truthy_true. split.
    - intros [[[[[(v & H & Hv)|(v & H & Hv)]|(v & H & Hv)]|(v & H & Hv)]|(v & H & Hv)]|(v & H & Hv)];
        eexists _, v; (split; [|split; [exact H|exact Hv]]);
        rewrite !elem_of_cons; auto 10.
    - intros (k & v & Hk & H & Hv).
      rewrite !elem_of_cons, elem_of_nil in Hk.
      destruct Hk as [->|[->|[->|[->|[->|[->|[]]]]]]]; eauto 10. }
  split.
  { intros k v Hk. unfold isRemoteEnvironment, remoteIndicators in *.
    rewrite !elem_of_cons, elem_of_nil in Hk.
    rewrite !lookup_insert_ne by (intros ->; apply Hk; auto 10). done. }
  split; [|reflexivity].
  intros k.
  assert (∀ key, truthy (<[k:=""]> env !! key) = truthy (delete k env !! key)) as H.
  { intros key. destruct (decide (k = key)) as [->|Hne].
    - by rewrite lookup_insert_eq, lookup_delete_eq.
    - by rewrite lookup_insert_ne, lookup_delete_ne. }
  unfold isRemoteEnvironment. by rewrite !H.
Qed.

(** ** The client *)

Lemma z_string_Some x a : z_string x = Some a ↔ x = Some (JString a).
Proof.
  unfold z_string. destruct x as [[| | |s| |]|]; split; try done.
  - by intros [= ->].
  - by intros [= ->].
Qed.

Lemma ok_not_pending response : ok response = true → pending response = false.
Proof.
  unfold ok, pending. intros [H1 H2]%andb_true_iff.
  apply Z.leb_le in H1, H2. apply orb_false_iff. split; apply Z.eqb_neq; lia.
Qed.

(** X2. A polling response leads to the token exchange exactly when its
    status is in 200..299 and its body is an object whose
    [authorization_code], [code_challenge] and [code_verifier] are all
    strings; the exchange gets the first and the last. A 2xx body that
    lacks a string [code_challenge], which the exchange does not use,
    makes the call fail with a [ZodError], and one that is not JSON
    makes it fail with a [SyntaxError]. *)
Theorem pollStep_exchange_iff (response : Response) (a v : string) :
  (pollStep response = Exchange a v
   ↔ ok response = true
     ∧ ∃ fields c,
         body response = Some (JObject fields)
         ∧ get "authorization_code" fields = Some (JString a)
         ∧ get "code_challenge" fields = Some (JString c)
         ∧ get "code_verifier" fields = Some (JString v))
  ∧ (ok response = true →
     ∀ fields, body response = Some (JObject fields) →
       z_string (get "code_challenge" fields) = None →
       pollStep response = Throw ZodError)
  ∧ (ok response = true → body response = None → pollStep response = Throw SyntaxError).
Proof.
  split; [split|split].
  - unfold pollStep, response_json. destruct (pending response); [done|].
    destruct (ok response); [|done]. simpl.
    destruct (body response) as [[| | | | |fields]|]; try done.
    unfold deviceTokenResponseSchema_parse.
    destruct (z_string (get "authorization_code" fields)) as [a'|] eqn:Ea; [|done].
    destruct (z_string (get "code_challenge" fields)) as [c'|] eqn:Ec; [|done].
    destruct (z_string (get "code_verifier" fields)) as [v'|] eqn:Ev; [|done].
    simpl. intros [= -> ->]. split; [done|]. exists fields, c'.
    apply z_string_Some in Ea, Ec, Ev. done.
  - intros (Hok & fields & c & Hb & Ha & Hc & Hv).
    unfold pollStep, response_json. rewrite (ok_not_pending _ Hok), Hok, Hb. simpl.
    by rewrite Ha, Hc, Hv.
  - intros Hok fields Hb Hc.
    unfold pollStep, response_json. rewrite (ok_not_pending _ Hok), Hok, Hb. simpl.
    rewrite Hc. by destruct (z_string (get "authorization_code" fields)).
  - intros Hok Hb.
    unfold pollStep, response_json. by rewrite (ok_not_pending _ Hok), Hok, Hb.
Qed.

(** X3. [requestDeviceCode] sends its one request at once and settles
    within 30 seconds whatever the network does: a reply that takes
    30 seconds or more is cut off by [AbortSignal.timeout(30000)] with a
    [TimeoutError], and a request that fails earlier fails the call with
    the same error. *)
Theorem requestDeviceCode_within_30s (net : Network) (w : World) :
  let sentOne := trace w ++ [(now w, DeviceCodeRequest OPENAI_CODEX_OAUTH_CONFIG.clientId)] in
  trace (requestDeviceCode net w).2 = sentOne
  ∧ now w ≤ now (requestDeviceCode net w).2 ≤ now w + 30000
  ∧ (30000 ≤ latency (usercode net) →
     requestDeviceCode net w
     = (inl TimeoutError, {| now := now w + 30000; trace := sentOne |}))
  ∧ (latency (usercode net) < 30000 → ∀ e, outcome (usercode net) = inl e →
     (requestDeviceCode net w).1 = inl e).
Proof.
  intros sentOne. unfold requestDeviceCode.
  rewrite (fetch_fires _ _ (AbortSignal_timeout 30000 (now w)) (now w + 30000))
    by reflexivity.
  destruct (now w + 30000 <=? now w) eqn:E0; [lia|].
  unfold arrival.
  destruct (now w + 30000 <=? now w + 0 `max` latency (usercode net)) eqn:E1.
  - apply Z.leb_le in E1. simpl. split; [done|]. split; [lia|].
    split; [done|]. intros Hl. lia.
  - apply Z.leb_gt in E1.
    destruct (outcome (usercode net)) as [e|response] eqn:Ho; simpl.
    + split; [done|]. split; [lia|]. split; [intros; lia|]. by intros _ e' [= <-].
    + split; [done|]. split; [lia|]. split; [intros; lia|]. done.
Qed.

(** The three ways a request can go. *)
Lemma fetch_cases {A} req sg (reply : Reply A) w :
  (∃ e, fetch req sg reply w = (inl e, w))
  ∨ (∃ e t, now w ≤ t
       ∧ fetch req sg reply w = (inl e, at_time t (sent (now w) req w)))
  ∨ fetch req sg reply w
    = (outcome reply, at_time (arrival (now w) reply) (sent (now w) req w)).
Proof.
  unfold fetch. destruct (throwIfAborted sg (now w)) as [e|] eqn:E; [left; by exists e|].
  right. destruct sg as [s|]; [|by right].
  destruct (aborted s (arrival (now w) reply)) eqn:Ea; [|by right].
  left. exists (reason s), (default (arrival (now w) reply) (firesAt s)). split; [|done].
  unfold throwIfAborted in E. destruct (aborted s (now w)) eqn:Eb; [done|].
  unfold aborted in Ea, Eb. pose proof (arrival_ge (now w) reply).
  destruct (firesAt s) as [a|]; simpl; lia.
Qed.

Section PollShape.

Variable net : Network.
Variables deviceAuthId userCode : string.
Variables (intervalMs deadline : Z) (sg : option AbortSignal).

Local Notation loop := (poll_loop net deviceAuthId userCode intervalMs deadline sg).
Local Notation d := (timerDelay intervalMs).

(** What a call of the loop sends, and when. *)
Lemma poll_loop_shape fuel k w r w' :
  loop fuel k w = Some (r, w') →
  ∃ times ex,
    trace w' = trace w ++ ((λ t, (t, PollRequest deviceAuthId userCode)) <$> times) ++ ex
    ∧ now w ≤ now w'
    ∧ Forall (λ t, now w + d ≤ t < deadline + d) times
    ∧ Z.of_nat (length times) * d < Z.max 0 (deadline - now w) + d
    ∧ ((ex = [] ∧ ∃ e, r = inl e)
       ∨ ∃ t a v,
           ex = [(t, ExchangeRequest (exchangeBody a v))]
           ∧ r = outcome (oauthtoken net (exchangeBody a v))).
Proof.
  pose proof (timerDelay_pos intervalMs) as Hd.
  revert k w. induction fuel as [|fuel IH]; intros k w H; [done|].
  rewrite poll_loop_unfold in H.
  destruct (now w <? deadline) eqn:Hdl; simpl in H.
  2:{ injection H as <- <-. exists [], []. simpl. rewrite app_nil_r.
      split; [done|]. split; [lia|]. split; [constructor|]. split; [lia|].
      left. split; [done|]. by eexists. }
  apply Z.ltb_lt in Hdl.
  destruct (throwIfAborted sg (now w)) as [e|].
  { injection H as <- <-. exists [], []. simpl. rewrite app_nil_r.
    split; [done|]. split; [lia|]. split; [constructor|]. split; [lia|].
    left. split; [done|]. by eexists. }
  assert (Hone : Z.of_nat (length [now w + d]) * d < Z.max 0 (deadline - now w) + d).
  { simpl. lia. }
  assert (Hin : Forall (λ t, now w + d ≤ t < deadline + d) [now w + d]).
  { constructor; [lia|constructor]. }
  destruct (fetch_cases (PollRequest deviceAuthId userCode) sg (devicetoken net k)
              (sleep intervalMs w)) as [(e & Hf)|[(e & t & Ht & Hf)|Hf]];
    rewrite Hf in H; clear Hf.
  - injection H as <- <-. exists [], []. simpl. rewrite app_nil_r.
    split; [done|]. split; [lia|]. split; [constructor|]. split; [lia|].
    left. split; [done|]. by eexists.
  - injection H as <- <-. exists [now w + d], []. simpl in *.
    split; [done|]. split; [lia|]. split; [done|]. split; [done|].
    left. split; [done|]. by eexists.
  - set (w2 := at_time _ _) in H.
    assert (Hw2 : now w + d ≤ now w2).
    { unfold w2, arrival. simpl. lia. }
    assert (Htr2 : trace w2 = trace w ++ [(now w + d, PollRequest deviceAuthId userCode)]).
    { reflexivity. }
    destruct (outcome (devicetoken net k)) as [e|response].
    { injection H as <- <-. exists [now w + d], []. rewrite Htr2.
      split; [done|]. split; [lia|]. split; [done|]. split; [done|].
      left. split; [done|]. by eexists. }
    destruct (pollStep response) as [|e|a v].
    + apply IH in H as (times & ex & Htr & Hnow & Hall & Hcount & Hex).
      exists ((now w + d) :: times), ex.
      split. { rewrite Htr, Htr2, <- app_assoc. reflexivity. }
      split; [lia|].
      split. { constructor; [lia|]. eapply Forall_impl; [exact Hall|]. intros t ?. simpl in *. lia. }
      split; [|done].
      simpl length. rewrite Nat2Z.inj_succ.
      destruct (Z_lt_le_dec (deadline - now w2) 0).
      * assert (Z.of_nat (length times) = 0) by nia. nia.
      * nia.
    + injection H as <- <-. exists [now w + d], []. rewrite Htr2.
      split; [done|]. split; [lia|]. split; [done|]. split; [done|].
      left. split; [done|]. by eexists.
    + unfold exchangeDeviceCodeForTokens, fetch in H. simpl in H.
      injection H as <- <-. eexists [now w + d], [_]. simpl.
      split. { by rewrite <- app_assoc. }
      split. { unfold arrival. lia. }
      split; [done|]. split; [done|].
      right. by eexists _, a, v.
Qed.

End PollShape.

Lemma sentAt_poll_times d u times :
  sentAt is_poll ((λ t, (t, PollRequest d u)) <$> times) = times.
Proof.
  unfold sentAt. induction times as [|t times IH]; [done|].
  rewrite fmap_cons, filter_cons_True by done. rewrite fmap_cons. by rewrite IH.
Qed.

(** X4. Whatever the network and the signal do, a call that ends has
    sent polling requests for its own device identifier and user code
    and then at most one token exchange, the last thing it sent, and
    nothing else; the clock has not gone back. It ends with credentials
    only if it sent that exchange, and then they are what the token
    endpoint answered; without an exchange it ended with an error. *)
Theorem poll_requests_and_result (net : Network) (deviceAuthId userCode : string)
    (options : option (PollOptions AbortSignal)) (fuel : nat) (w w' : World)
    (r : JsError + OpenAiCodexCredentials) :
  pollForDeviceAuthorization net deviceAuthId userCode options fuel w = Some (r, w') →
  ∃ times ex,
    trace w' = trace w ++ ((λ t, (t, PollRequest deviceAuthId userCode)) <$> times) ++ ex
    ∧ now w ≤ now w'
    ∧ ((ex = [] ∧ ∃ e, r = inl e)
       ∨ ∃ t a v,
           ex = [(t, ExchangeRequest (exchangeBody a v))]
           ∧ r = outcome (oauthtoken net (exchangeBody a v)))
    ∧ (∀ c, r = inr c →
       ∃ t a v,
         ex = [(t, ExchangeRequest (exchangeBody a v))]
         ∧ outcome (oauthtoken net (exchangeBody a v)) = inr c).
Proof.
  unfold pollForDeviceAuthorization. intros H.
  apply poll_loop_shape in H as (times & ex & Htr & Hnow & _ & _ & Hex).
  exists times, ex. split; [done|]. split; [done|]. split; [done|].
  intros c ->. destruct Hex as [(_ & e & [=])|(t & a & v & -> & Hr)].
  by exists t, a, v.
Qed.

Lemma poll_requests_and_result_witness :
  ∃ times ex,
    [(5000, PollRequest "d1" "ABCD-EFGH"); (10080, PollRequest "d1" "ABCD-EFGH");
     (15160, PollRequest "d1" "ABCD-EFGH"); (20240, PollRequest "d1" "ABCD-EFGH");
     (20320, ExchangeRequest (exchangeBody "ac1" "cv"))]
    = [] ++ ((λ t, (t, PollRequest "d1" "ABCD-EFGH")) <$> times) ++ ex
    ∧ ∃ t a v, ex = [(t, ExchangeRequest (exchangeBody a v))].
Proof.
  destruct (poll_requests_and_result (scenarioNet (inr someCredentials)) "d1" "ABCD-EFGH"
              None 4 epoch
              {| now := 20520;
                 trace := [(5000, PollRequest "d1" "ABCD-EFGH");
                           (10080, PollRequest "d1" "ABCD-EFGH");
                           (15160, PollRequest "d1" "ABCD-EFGH");
                           (20240, PollRequest "d1" "ABCD-EFGH");
                           (20320, ExchangeRequest (exchangeBody "ac1" "cv"))] |}
              (inr someCredentials))
    as (times & ex & Htr & _ & _ & Hc); [reflexivity|].
  exists times, ex. split; [exact Htr|].
  destruct (Hc someCredentials eq_refl) as (t & a & v & Hex & _).
  by exists t, a, v.
Defined.

(** X5. A call sends fewer polling requests than fit, one timer delay
    apart, into its timeout plus one delay, and each of them leaves less
    than one delay after the deadline; a timeout that is not positive
    allows none. With the defaults of 5 seconds and 15 minutes these
    are at most 180 requests. *)
Theorem poll_count_bounded (net : Network) (deviceAuthId userCode : string)
    (options : option (PollOptions AbortSignal)) (fuel : nat) (w w' : World)
    (r : JsError + OpenAiCodexCredentials) :
  pollForDeviceAuthorization net deviceAuthId userCode options fuel w = Some (r, w') →
  let ms := timerDelay (effectiveIntervalMs options) in
  let polls := sentAt is_poll (drop (length (trace w)) (trace w')) in
  Z.of_nat (length polls) * ms < Z.max 0 (effectiveTimeoutMs options) + ms
  ∧ Forall (λ t, now w + ms ≤ t < now w + effectiveTimeoutMs options + ms) polls
  ∧ (effectiveTimeoutMs options ≤ 0 → polls = [])
  ∧ (effectiveIntervalMs options = 5000 → effectiveTimeoutMs options = 15 * 60 * 1000 →
     (length polls ≤ 180)%nat).
Proof.
  intros H ms polls. unfold pollForDeviceAuthorization in H.
  apply poll_loop_shape in H as (times & ex & Htr & _ & Hall & Hcount & Hex).
  assert (polls = times) as ->.
  { unfold polls. rewrite Htr, drop_app_length, sentAt_app, sentAt_poll_times.
    destruct Hex as [(-> & _)|(t & a & v & -> & _)]; by rewrite app_nil_r. }
  replace (now w + effectiveTimeoutMs options - now w)
    with (effectiveTimeoutMs options) in Hcount by lia.
  fold ms in Hcount, Hall.
  split; [done|]. split; [done|].
  pose proof (timerDelay_pos (effectiveIntervalMs options)) as Hd. fold ms in Hd.
  split.
  { intros Ht. destruct times as [|t times]; [done|]. simpl length in Hcount. nia. }
  intros Hi Ht. unfold ms in *. rewrite Hi, Ht in *.
  rewrite timerDelay_id in Hcount by (unfold TIMEOUT_MAX; lia). lia.
Qed.

Lemma poll_count_bounded_witness :
  Z.of_nat (length (sentAt is_poll
                      [(5000, PollRequest "d1" "ABCD-EFGH");
                       (10000, PollRequest "d1" "ABCD-EFGH");
                       (15000, PollRequest "d1" "ABCD-EFGH")])) * 5000
  < Z.max 0 (15 * 60 * 1000) + 5000.
Proof.
  pose proof (poll_count_bounded failingNet "d1" "ABCD-EFGH" None 3 epoch
                {| now := 15000;
                   trace := [(5000, PollRequest "d1" "ABCD-EFGH");
                             (10000, PollRequest "d1" "ABCD-EFGH");
                             (15000, PollRequest "d1" "ABCD-EFGH")] |}
                (inl (Error "Device token polling failed: 500")) eq_refl) as H.
  cbv zeta in H. exact (proj1 H).
Defined.

(** X6. The deadline is tested before the signal: with a timeout that is
    not positive the call fails at once with the time-out error, even
    when its signal has already been aborted; with a positive timeout
    and such a signal it fails at once with the signal's reason. In both
    cases nothing is sent and no time passes. *)
Theorem poll_entry_checks (net : Network) (deviceAuthId userCode : string)
    (options : option (PollOptions AbortSignal)) (fuel : nat) (w : World) :
  (effectiveTimeoutMs options ≤ 0 →
   pollForDeviceAuthorization net deviceAuthId userCode options (S fuel) w
   = Some (inl (Error timedOutMessage), w))
  ∧ (0 < effectiveTimeoutMs options →
     ∀ e, throwIfAborted (options ≫= signal) (now w) = Some e →
     pollForDeviceAuthorization net deviceAuthId userCode options (S fuel) w
     = Some (inl e, w)).
Proof.
  unfold pollForDeviceAuthorization. split.
  - intros H. rewrite poll_loop_unfold.
    destruct (now w <? now w + effectiveTimeoutMs options) eqn:E; [lia|done].
  - intros H e He. rewrite poll_loop_unfold.
    destruct (now w <? now w + effectiveTimeoutMs options) eqn:E; [|lia].
    simpl. by rewrite He.
Qed.

(** ** The session manager *)

Lemma run_app l1 l2 s : run (l1 ++ l2) s = run l2 (run l1 s).
Proof. unfold run. apply foldl_app. Qed.

(** A step leaves alone the calls it does not resume. *)
Lemma step_other_calls s a j c :
  calls s !! j = Some c → resumed a ≠ Some j → calls (step s a) !! j = Some c.
Proof.
  intros H Hr. pose proof (lookup_lt_Some _ _ _ H) as Hlt.
  assert (Hins : ∀ i c' (s' : Session), calls s' = calls s → i ≠ j →
            calls (resume i c' s') !! j = Some c).
  { intros i c' s' Hs' Hne. simpl. rewrite Hs'. by rewrite list_lookup_insert_ne. }
  destruct a as [|d' u'| |i r'|i|i r' expired|i r'|i]; cbn [step]; simpl in Hr.
  - destruct (start_frame s) as (_ & _ & -> & _). by rewrite lookup_app_l.
  - unfold waitForDeviceAuthorization. case_match; simpl; [|done]. by rewrite lookup_app_l.
  - destruct (cancel_frame s) as (_ & -> & _). done.
  - unfold deviceCodeSettles. repeat case_match; try done; (apply Hins; [done|congruence]).
  - unfold timerFires. repeat case_match; try done; (apply Hins; [done|congruence]).
  - unfold pollSettles. repeat case_match; try done; (apply Hins; [done|congruence]).
  - unfold exchangeSettles. repeat case_match; try done; (apply Hins; [done|congruence]).
  - unfold saveSettles. repeat case_match; try done; (apply Hins; [done|congruence]).
Qed.

Lemma run_other_calls l s j c :
  calls s !! j = Some c → (∀ a, a ∈ l → resumed a ≠ Some j) →
  calls (run l s) !! j = Some c.
Proof.
  induction l as [|a l IH] using rev_ind; intros H Hl; [done|].
  rewrite run_snoc. apply step_other_calls.
  - apply IH; [done|]. intros a' Ha'. apply Hl, elem_of_app. by left.
  - apply Hl, elem_of_app. right. by apply list_elem_of_singleton.
Qed.

(** Only [cancelDeviceCodeFlow] and [startDeviceCodeFlow] touch the
    controllers. *)
Lemma step_controllers s a :
  a ≠ CallStart → a ≠ CallCancel → controllers (step s a) = controllers s.
Proof.
  destruct a as [|d' u'| |i r'|i|i r' expired|i r'|i]; cbn [step]; try done; intros _ _.
  - unfold waitForDeviceAuthorization. by case_match.
  - unfold deviceCodeSettles. by repeat case_match.
  - unfold timerFires. by repeat case_match.
  - unfold pollSettles. by repeat case_match.
  - unfold exchangeSettles. by repeat case_match.
  - unfold saveSettles. by repeat case_match.
Qed.

(** An aborted controller stays aborted. *)
Lemma aborted_stable s a c :
  controllers s !! c = Some true → controllers (step s a) !! c = Some true.
Proof.
  intros H. pose proof (lookup_lt_Some _ _ _ H) as Hlt.
  assert (Hc : controllers (cancelDeviceCodeFlow s) !! c = Some true).
  { unfold cancelDeviceCodeFlow. destruct (deviceCodeAbortController s) as [c'|]; [|done].
    simpl. destruct (decide (c' = c)) as [->|Hne].
    - by rewrite list_lookup_insert_eq.
    - by rewrite list_lookup_insert_ne. }
  destruct a as [|d' u'| |i r'|i|i r' expired|i r'|i];
    try (by rewrite step_controllers).
  - cbn [step]. destruct (start_frame s) as (_ & -> & _).
    rewrite lookup_app_l; [done|]. by apply lookup_lt_Some in Hc.
  - done.
Qed.

Lemma optionsAborted_stable s a o :
  optionsAborted s o = true → optionsAborted (step s a) o = true.
Proof.
  intros H. unfold optionsAborted in *. destruct (signal o) as [c|]; [|done].
  cbn [from_option] in *. unfold signalAborted in *.
  destruct (controllers s !! c) as [[|]|] eqn:E; try done.
  exact (f_equal (default false) (aborted_stable s a c E)).
Qed.

(** X7. In every state that a run reaches, the controller that the
    manager has stored has not been aborted; a
    [waitForDeviceAuthorization] made then is not rejected by its guard,
    passes the first deadline test and [throwIfAborted], and goes to
    sleep before its first poll, having sent nothing. *)
Theorem stored_controller_is_live (l : list Action) (deviceAuthId userCode : string)
    (c : ControllerRef) :
  deviceCodeAbortController (run l initial) = Some c →
  controllers (run l initial) !! c = Some false
  ∧ waitForDeviceAuthorization deviceAuthId userCode (run l initial)
    = (None,
       set_calls (calls (run l initial)
                  ++ [WaitCall deviceAuthId userCode (waitOptions c) AwaitTimer])
         (run l initial)).
Proof.
  assert (Hinv : ∀ l c, deviceCodeAbortController (run l initial) = Some c →
            controllers (run l initial) !! c = Some false).
  { clear. intros l. induction l as [|a l IH] using rev_ind; [done|].
    intros c. rewrite run_snoc. set (s := run l initial) in *.
    destruct a as [|d' u'| |i r'|i|i r' expired|i r'|i]; cbn [step].
    - destruct (start_frame s) as (-> & -> & _). intros [= <-].
      destruct (cancel_frame s) as (_ & _ & _ & _ & <-).
      by rewrite list_lookup_middle.
    - unfold waitForDeviceAuthorization.
      destruct (deviceCodeAbortController s) eqn:E; simpl; [|by rewrite E].
      rewrite E. apply IH.
    - destruct (cancel_frame s) as (-> & _). done.
    - unfold deviceCodeSettles. repeat case_match; apply IH.
    - unfold timerFires. repeat case_match; apply IH.
    - unfold pollSettles. repeat case_match; apply IH.
    - unfold exchangeSettles. repeat case_match; apply IH.
    - unfold saveSettles. repeat case_match; try apply IH. done. }
  intros H. pose proof (Hinv l c H) as Hc. split; [done|].
  unfold waitForDeviceAuthorization. rewrite H.
  unfold optionsAborted, signalAborted. simpl. by rewrite Hc.
Qed.

Lemma stored_controller_is_live_witness :
  waitForDeviceAuthorization "d1" "ABCD-EFGH" (run [CallStart] initial)
  = (None,
     set_calls [StartCall None; WaitCall "d1" "ABCD-EFGH" (waitOptions 0%nat) AwaitTimer]
       (run [CallStart] initial)).
Proof.
  destruct (stored_controller_is_live [CallStart] "d1" "ABCD-EFGH" 0%nat) as (_ & H);
    [reflexivity | exact H].
Defined.

(** X8. A wait that sleeps or polls and whose signal has been aborted
    is, after any further run, still waiting where it was or settled
    with the abort error, and its signal is still aborted; none of its
    events sends a request or changes the persisted credentials. *)
Theorem cancelled_poll_is_inert (s : Session) (i : nat) (deviceAuthId userCode : string)
    (options : PollOptions ControllerRef) (pc : PollPc) (l : list Action) :
  calls s !! i = Some (WaitCall deviceAuthId userCode options pc) →
  pc = AwaitTimer ∨ pc = AwaitPoll →
  optionsAborted s options = true →
  (calls (run l s) !! i = Some (WaitCall deviceAuthId userCode options pc)
   ∨ calls (run l s) !! i
     = Some (WaitCall deviceAuthId userCode options (Settled (inl AbortError))))
  ∧ optionsAborted (run l s) options = true
  ∧ (∀ a, resumed a = Some i →
       requests (step (run l s) a) = requests (run l s)
       ∧ credentialStore (step (run l s) a) = credentialStore (run l s)).
Proof.
  intros Hc Hpc Ha.
  assert (Hstep : ∀ s', 
            (calls s' !! i = Some (WaitCall deviceAuthId userCode options pc)
             ∨ calls s' !! i
               = Some (WaitCall deviceAuthId userCode options (Settled (inl AbortError)))) →
            optionsAborted s' options = true →
            ∀ a, resumed a = Some i →
              (calls (step s' a) !! i = Some (WaitCall deviceAuthId userCode options pc)
               ∨ calls (step s' a) !! i
                 = Some (WaitCall deviceAuthId userCode options (Settled (inl AbortError))))
              ∧ requests (step s' a) = requests s'
              ∧ credentialStore (step s' a) = credentialStore s').
  { intros s' Hs' Ha' a Hr.
    assert (Hlt : (i < length (calls s'))%nat).
    { destruct Hs' as [Hs'|Hs']; by apply lookup_lt_Some in Hs'. }
    destruct a as [|d' u'| |j r'|j|j r' expired|j r'|j]; simpl in Hr; try done;
      injection Hr as ->; cbn [step].
    - unfold deviceCodeSettles. destruct Hs' as [Hs'|Hs']; rewrite Hs'; auto.
    - unfold timerFires.
      destruct Hs' as [Hs'|Hs']; rewrite Hs'; [|auto].
      destruct Hpc as [->| ->]; [|auto].
      rewrite Ha'. split; [right; by apply resume_lookup|done].
    - unfold pollSettles.
      destruct Hs' as [Hs'|Hs']; rewrite Hs'; [|auto].
      destruct Hpc as [->| ->]; [auto|].
      rewrite Ha'. split; [right; by apply resume_lookup|done].
    - unfold exchangeSettles.
      destruct Hs' as [Hs'|Hs']; rewrite Hs'; [|auto].
      destruct Hpc as [->| ->]; auto.
    - unfold saveSettles.
      destruct Hs' as [Hs'|Hs']; rewrite Hs'; [|auto].
      destruct Hpc as [->| ->]; auto. }
  assert (Hrun : (calls (run l s) !! i = Some (WaitCall deviceAuthId userCode options pc)
                  ∨ calls (run l s) !! i
                    = Some (WaitCall deviceAuthId userCode options (Settled (inl AbortError))))
                 ∧ optionsAborted (run l s) options = true).
  { induction l as [|a l IH] using rev_ind; [by split; [left|]|].
    rewrite run_snoc. destruct IH as [IHc IHa].
    split; [|by apply optionsAborted_stable].
    destruct (resumed a) as [j|] eqn:Er.
    - destruct (decide (j = i)) as [->|Hne].
      + by apply Hstep.
      + destruct IHc as [IHc|IHc]; [left|right];
          (apply step_other_calls; [done|congruence]).
    - destruct IHc as [IHc|IHc]; [left|right];
        (apply step_other_calls; [done|congruence]). }
  destruct Hrun as [Hrc Hra]. split; [done|]. split; [done|].
  intros a Hr. by apply Hstep.
Qed.

Lemma cancelled_poll_is_inert_witness :
  calls (run [TimerFires 1; PollSettles 1 (inr authorized) false]
           (run [CallStart; CallWait "d1" "ABCD-EFGH"; CallCancel] initial)) !! 1%nat
  = Some (WaitCall "d1" "ABCD-EFGH" (waitOptions 0%nat) AwaitTimer)
  ∨ calls (run [TimerFires 1; PollSettles 1 (inr authorized) false]
             (run [CallStart; CallWait "d1" "ABCD-EFGH"; CallCancel] initial)) !! 1%nat
    = Some (WaitCall "d1" "ABCD-EFGH" (waitOptions 0%nat) (Settled (inl AbortError))).
Proof.
  destruct (cancelled_poll_is_inert
              (run [CallStart; CallWait "d1" "ABCD-EFGH"; CallCancel] initial)
              1 "d1" "ABCD-EFGH" (waitOptions 0%nat) AwaitTimer
              [TimerFires 1; PollSettles 1 (inr authorized) false])
    as (H & _); [reflexivity | by left | reflexivity | exact H].
Defined.

(** X9. The token exchange cannot be cancelled. Once a wait is inside
    [exchangeDeviceCodeForTokens], whatever is called meanwhile on the
    manager (cancel and start included) and whatever happens to other
    calls, a successful exchange followed by the settling of
    [saveCredentials] persists the credentials, returns them, and
    clears the manager's controller, whichever controller that is by
    then. *)
Theorem exchange_is_not_cancellable (s : Session) (i : nat) (deviceAuthId userCode : string)
    (options : PollOptions ControllerRef) (credentials : OpenAiCodexCredentials)
    (l l' : list Action) :
  calls s !! i = Some (WaitCall deviceAuthId userCode options AwaitExchange) →
  (∀ a, a ∈ l → resumed a ≠ Some i) →
  (∀ a, a ∈ l' → resumed a ≠ Some i) →
  let s' := run (l ++ [ExchangeSettles i (inr credentials)] ++ l' ++ [SaveSettles i]) s in
  credentialStore s' = Some credentials
  ∧ calls s' !! i
    = Some (WaitCall deviceAuthId userCode options (Settled (inr credentials)))
  ∧ deviceCodeAbortController s' = None.
Proof.
  intros Hc Hl Hl' s'. unfold s'. rewrite !run_app.
  set (s1 := run l s).
  assert (H1 : calls s1 !! i = Some (WaitCall deviceAuthId userCode options AwaitExchange)).
  { by apply run_other_calls. }
  set (s2 := run [ExchangeSettles i (inr credentials)] s1).
  assert (H2 : calls s2 !! i
               = Some (WaitCall deviceAuthId userCode options (AwaitSave credentials))).
  { unfold s2. cbn [run foldl step]. unfold exchangeSettles. rewrite H1.
    apply resume_lookup. by apply lookup_lt_Some in H1. }
  set (s3 := run l' s2).
  assert (H3 : calls s3 !! i
               = Some (WaitCall deviceAuthId userCode options (AwaitSave credentials))).
  { by apply run_other_calls. }
  cbn [run foldl step]. unfold saveSettles. rewrite H3.
  split; [done|]. split; [|done].
  apply resume_lookup. simpl. by apply lookup_lt_Some in H3.
Qed.

Lemma exchange_is_not_cancellable_witness :
  credentialStore
    (run ([CallCancel; CallStart] ++ [ExchangeSettles 1 (inr someCredentials)]
          ++ [CallWait "d2" "BBBB-BBBB"; CallCancel] ++ [SaveSettles 1])
       (run [CallStart; CallWait "d1" "ABCD-EFGH"; TimerFires 1;
             PollSettles 1 (inr authorized) false] initial))
  = Some someCredentials.
Proof.
  pose proof (exchange_is_not_cancellable
                (run [CallStart; CallWait "d1" "ABCD-EFGH"; TimerFires 1;
                      PollSettles 1 (inr authorized) false] initial)
                1 "d1" "ABCD-EFGH" (waitOptions 0%nat) someCredentials
                [CallCancel; CallStart] [CallWait "d2" "BBBB-BBBB"; CallCancel]) as H.
  cbv zeta in H. apply H.
  - reflexivity.
  - intros a Ha. apply list_elem_of_In in Ha. simpl in Ha.
    destruct Ha as [<-|[<-|[]]]; discriminate.
  - intros a Ha. apply list_elem_of_In in Ha. simpl in Ha.
    destruct Ha as [<-|[<-|[]]]; discriminate.
Defined.

(** X10. Before the first [startDeviceCodeFlow] nothing happens: no
    calls to wait or cancel and no event change the session, so that no
    request is sent and nothing is saved. *)
Theorem nothing_happens_before_start (l : list Action) :
  CallStart ∉ l → run l initial = initial.
Proof.
  induction l as [|a l IH] using rev_ind; [done|].
  intros Hn. rewrite run_snoc, IH.
  - destruct a as [|d' u'| |i r'|i|i r' expired|i r'|i]; try reflexivity.
    exfalso. apply Hn, elem_of_app. right. by apply list_elem_of_singleton.
  - intros ?. apply Hn, elem_of_app. by left.
Qed.

Lemma nothing_happens_before_start_witness :
  run [CallWait "d1" "ABCD-EFGH"; CallCancel; TimerFires 0;
       PollSettles 0 (inr authorized) false; SaveSettles 0] initial
  = initial.
Proof.
  apply nothing_happens_before_start.
  intros H. apply list_elem_of_In in H. simpl in H.
  repeat (destruct H as [H|H]; [discriminate H|]). exact H.
Defined.

(** ** Signing in from the extension host *)

Lemma pretty_N_go_avoids (c : Ascii.ascii) (x : N) (s : string) :
  (∀ n, pretty_N_char n ≠ c) →
  c ∉ String.list_ascii_of_string s → c ∉ String.list_ascii_of_string (pretty_N_go x s).
Proof.
  intros Hc. revert s. induction (N.lt_wf_0 x) as [x _ IH]; intros s Hs.
  assert (x = 0 ∨ 0 < x)%N as [->|Hx] by lia.
  - by rewrite pretty_N_go_0.
  - rewrite pretty_N_go_step by done. apply IH.
    + by apply N.div_lt.
    + simpl. rewrite not_elem_of_cons. split; [|done]. intros ->. by eapply Hc.
Qed.

Lemma pretty_Z_avoids_t (z : Z) : "t"%char ∉ String.list_ascii_of_string (pretty z).
Proof.
  assert (Hc : ∀ n, pretty_N_char n ≠ "t"%char).
  { intros n. unfold pretty_N_char. repeat case_match; done. }
  assert (Hp : ∀ p, "t"%char ∉ String.list_ascii_of_string (pretty (Npos p))).
  { intros p. unfold pretty, pretty_N. case_decide; [done|].
    apply pretty_N_go_avoids; [done|]. simpl. apply not_elem_of_nil. }
  unfold pretty, pretty_Z. destruct z as [|p|p].
  - simpl. rewrite not_elem_of_cons. split; [done|apply not_elem_of_nil].
  - apply Hp.
  - simpl. rewrite not_elem_of_cons. split; [done|apply Hp].
Qed.

Lemma includes_timed_out_avoids (s : string) :
  "t"%char ∉ String.list_ascii_of_string s → includes "timed out" s = false.
Proof.
  induction s as [|c s IH]; [done|].
  simpl String.list_ascii_of_string. rewrite not_elem_of_cons. intros [Hc Hs].
  cbn [includes String.prefix]. destruct (Ascii.ascii_dec "t" c) as [<-|_]; [done|].
  by apply IH.
Qed.

Lemma pollingFailedMessage_not_timed_out response :
  includes "timed out" (pollingFailedMessage response) = false.
Proof.
  unfold pollingFailedMessage.
  pose proof (pretty_Z_avoids_t (status response)) as H.
  revert H. generalize (pretty (status response)). intros s H.
  transitivity (includes "timed out" s); [reflexivity|].
  by apply includes_timed_out_avoids.
Qed.

(** X11. When the wait settles, either way, the host clears the device
    code and posts a state without it, so that the webview stops
    showing the code; a failed wait also leaves the manager without a
    controller. The loop's own time-out is not reported, while a
    polling failure is reported with its status, whatever that is.
    While the wait is pending, a webview that is not authenticated
    shows the user code of the device-code response and the
    verification URL. *)
Theorem signIn_handlers (describe : JsError → string) (h : ExtensionHost.Host) :
  (ExtensionHost.openAiCodexDeviceCode (ExtensionHost.onAuthorized h) = None
   ∧ ExtensionHost.events (ExtensionHost.onAuthorized h)
     = ExtensionHost.events h
       ++ [ExtensionHost.ShowMessage ExtensionHost.INFORMATION
             "Successfully signed in to OpenAI Codex";
           ExtensionHost.PostStateToWebview None])
  ∧ (∀ error,
       ExtensionHost.openAiCodexDeviceCode (ExtensionHost.onFailed describe error h) = None
       ∧ last (ExtensionHost.events (ExtensionHost.onFailed describe error h))
         = Some (ExtensionHost.PostStateToWebview None)
       ∧ deviceCodeAbortController
           (ExtensionHost.session (ExtensionHost.onFailed describe error h)) = None)
  ∧ ExtensionHost.events (ExtensionHost.onFailed describe (Error timedOutMessage) h)
    = ExtensionHost.events h ++ [ExtensionHost.PostStateToWebview None]
  ∧ (∀ response,
       ExtensionHost.events
         (ExtensionHost.onFailed describe (Error (pollingFailedMessage response)) h)
       = ExtensionHost.events h
         ++ [ExtensionHost.ShowMessage ExtensionHost.ERROR
               ("OpenAI Codex sign in failed: Device token polling failed: "
                +:+ pretty (status response));
             ExtensionHost.PostStateToWebview None])
  ∧ (∀ authenticated url code,
       ExtensionHost.OpenAiCodexProvider authenticated None
       ≠ ExtensionHost.EnterCode url code)
  ∧ (∀ deviceCode,
       let shown :=
         {| ExtensionHost.userCode := user_code deviceCode;
            ExtensionHost.verificationUrl := "https://auth.openai.com/codex/device" |} in
       ExtensionHost.events (ExtensionHost.deviceCodeObtained deviceCode h)
       = ExtensionHost.events h ++ [ExtensionHost.PostStateToWebview (Some shown)]
       ∧ ExtensionHost.OpenAiCodexProvider false (Some shown)
         = ExtensionHost.EnterCode "https://auth.openai.com/codex/device"
             (user_code deviceCode)
       ∧ requests (ExtensionHost.session (ExtensionHost.deviceCodeObtained deviceCode h))
         = requests (ExtensionHost.session h)).
Proof.
  split; [split; [reflexivity|simpl; by rewrite <- app_assoc]|].
  split.
  { intros error. unfold ExtensionHost.onFailed.
    destruct (negb (includes "timed out" (ExtensionHost.errorMessage describe error)));
      simpl; rewrite ?last_snoc; (split; [done|]); (split; [done|]); done. }
  split; [reflexivity|].
  split.
  { intros response. unfold ExtensionHost.onFailed. cbn [ExtensionHost.errorMessage].
    rewrite pollingFailedMessage_not_timed_out. simpl. by rewrite <- app_assoc. }
  split.
  { intros [|] url code; simpl; done. }
  intros deviceCode shown. split; [reflexivity|]. split; [reflexivity|].
  unfold ExtensionHost.deviceCodeObtained. simpl.
  unfold waitForDeviceAuthorization. by case_match.
Qed.

(** ** The device-code response *)

(** X13. A 2xx device-code response is accepted exactly when its body
    is an object with string [device_auth_id] and [user_code] and an
    [interval] that is absent or a number; the result carries exactly
    these. An [interval] of any other kind, a string or [null] say,
    fails the request with a [ZodError], and so does a body that is not
    an object. *)
Theorem deviceCodeResult_accepts (response : Response) (result : DeviceCodeResponse) :
  ok response = true →
  (deviceCodeResult response = inr result
   ↔ ∃ fields,
       body response = Some (JObject fields)
       ∧ get "device_auth_id" fields = Some (JString (device_auth_id result))
       ∧ get "user_code" fields = Some (JString (user_code result))
       ∧ match get "interval" fields with
         | None => interval result = None
         | Some (JNumber n) => interval result = Some n
         | Some _ => False
         end)
  ∧ (∀ fields x, body response = Some (JObject fields) →
       get "interval" fields = Some x → (∀ n, x ≠ JNumber n) →
       deviceCodeResult response = inl ZodError)
  ∧ (∀ v, body response = Some v → (∀ fields, v ≠ JObject fields) →
       deviceCodeResult response = inl ZodError).
Proof.
  intros Hok.
  assert (Hs : (status response =? 404) = false).
  { unfold ok in Hok. apply andb_true_iff in Hok as [H1 H2].
    apply Z.leb_le in H1, H2. apply Z.eqb_neq. lia. }
  unfold deviceCodeResult, response_json. rewrite Hs, Hok. simpl.
  split; [split|split].
  - destruct (body response) as [[| | | | |fields]|]; try done.
    unfold deviceCodeResponseSchema_parse.
    destruct (z_string (get "device_auth_id" fields)) as [d|] eqn:Ed; [|done].
    destruct (z_string (get "user_code" fields)) as [u|] eqn:Eu; [|done].
    destruct (z_number_optional (get "interval" fields)) as [i|] eqn:Ei; [|done].
    intros [= <-]. simpl. exists fields.
    apply z_string_Some in Ed, Eu. split; [done|]. split; [done|]. split; [done|].
    unfold z_number_optional in Ei.
    destruct (get "interval" fields) as [[| |n| | |]|]; try done; by injection Ei as <-.
  - intros (fields & -> & Hd & Hu & Hi).
    unfold deviceCodeResponseSchema_parse. rewrite Hd, Hu. simpl.
    destruct result as [d u i]. simpl in *.
    destruct (get "interval" fields) as [[| |n| | |]|]; try done; simpl; by rewrite Hi.
  - intros fields x -> Hx Hn. unfold deviceCodeResponseSchema_parse. rewrite Hx.
    destruct (z_string (get "device_auth_id" fields)); [|done].
    destruct (z_string (get "user_code" fields)); [|done].
    destruct x; try done. by destruct (Hn n).
  - intros v -> Hv. destruct v; try done. by destruct (Hv fields).
Qed.

Lemma deviceCodeResult_accepts_witness :
  deviceCodeResult (deviceCodeIssued 5)
  = inr {| device_auth_id := "d1"; user_code := "ABCD-EFGH"; interval := Some 5 |}.
Proof.
  destruct (deviceCodeResult_accepts (deviceCodeIssued 5)
              {| device_auth_id := "d1"; user_code := "ABCD-EFGH"; interval := Some 5 |})
    as ((_ & H) & _); [reflexivity|].
  apply H. eexists. split; [reflexivity|]. split; [reflexivity|]. split; reflexivity.
Defined.
